(** * iCSD test bench: potentials of planes, disks and cylinders, and the
      superposition of their contributions into an LFP trace

    Shallow embedding of [testing.py].  The forward model of the test bench is
    embedded function by function:

    - [potential_of_plane], [potential_of_disk], [potential_of_cylinder]
      (the three kernels);
    - [get_lfp_of_planes], [get_lfp_of_disks], [get_lfp_of_cylinders]
      (the nested accumulation loops).

    Conventions of the embedding.

    - A Python float is a real number ([R]): arithmetic is the idealised,
      rounding-free one, division is total, and [sqrt] is the real square
      root.  Statements are therefore exact where the program agrees only up
      to round-off.
    - A [pq.Quantity] is a magnitude paired with a dimensionality, the latter
      being the exponent of every unit symbol the program mentions, as the
      [quantities] package keeps it (module [pq] below).
    - A raised exception is the [Raise] branch of [result]; statements run in
      sequence through [bind].
    - [scipy.integrate.quad] is a parameter [quad] of the cylinder kernel: a
      routine that maps an integrand and two bounds to a value and an
      estimate of the absolute error.
    - The [plot] flag only drives matplotlib; the embedding is the numeric
      path (the one every test takes, [plot = False]). *)

From Stdlib Require Import Reals ZArith Lia Lra List Bool.
From stdpp Require Import base list.

Open Scope R_scope.

(** ** Exceptions *)

(** The exceptions the forward model can raise.  [AssertionError] is the
    failure of a kernel's [assert] on the units of its positional arguments:
    the handler catches it and raises again with a message naming the units
    ([raise ae, msg], a Python 2 statement), so the call ends at the guard
    with an exception, for which the embedding has this one constructor.
    [ValueError] is what [quantities] raises when asked to convert between
    units of different dimension; [IndexError] is an out-of-range subscript;
    [ZeroDivisionError] is a division of Python floats by [0.0]. *)
Inductive exception : Set :=
| AssertionError
| ValueError
| IndexError
| ZeroDivisionError.

Inductive result (A : Type) : Type :=
| OK (a : A)
| Raise (e : exception).

Arguments OK {A} a.
Arguments Raise {A} e.

Definition bind {A B : Type} (r : result A) (k : A -> result B) : result B :=
  match r with
  | OK a => k a
  | Raise e => Raise e
  end.

Notation "'let*' x ':=' r 'in' k" := (bind r (fun x => k))
  (at level 10, x name, r at level 100, k at level 200).

(** ** The [quantities] package, as far as the program uses it *)

Module pq.

(** A dimensionality maps unit symbols to exponents (symbols with exponent
    zero are absent from the dictionary, which is what makes the record a
    canonical form).  The symbols are those of the program: [m], [mm], [A],
    [S], [mS], [V], [mV], and the SI base units [kg] and [s], which appear
    once a quantity is simplified. *)
Record Dimensionality : Set := mkDim {
  e_m : Z; e_mm : Z; e_kg : Z; e_s : Z; e_A : Z;
  e_S : Z; e_mS : Z; e_V : Z; e_mV : Z
}.

Definition dimensionless : Dimensionality := mkDim 0 0 0 0 0 0 0 0 0.

Definition dim_mul (d1 d2 : Dimensionality) : Dimensionality :=
  mkDim (e_m d1 + e_m d2) (e_mm d1 + e_mm d2) (e_kg d1 + e_kg d2)
        (e_s d1 + e_s d2) (e_A d1 + e_A d2) (e_S d1 + e_S d2)
        (e_mS d1 + e_mS d2) (e_V d1 + e_V d2) (e_mV d1 + e_mV d2).

Definition dim_div (d1 d2 : Dimensionality) : Dimensionality :=
  mkDim (e_m d1 - e_m d2) (e_mm d1 - e_mm d2) (e_kg d1 - e_kg d2)
        (e_s d1 - e_s d2) (e_A d1 - e_A d2) (e_S d1 - e_S d2)
        (e_mS d1 - e_mS d2) (e_V d1 - e_V d2) (e_mV d1 - e_mV d2).

Definition dim_pow (d : Dimensionality) (n : Z) : Dimensionality :=
  mkDim (e_m d * n) (e_mm d * n) (e_kg d * n) (e_s d * n) (e_A d * n)
        (e_S d * n) (e_mS d * n) (e_V d * n) (e_mV d * n).

(** [np.sqrt] halves every exponent.  Exponents are integers here; the
    program only takes the root of a sum of squares, whose exponents are
    even. *)
Definition dim_sqrt (d : Dimensionality) : Dimensionality :=
  mkDim (e_m d / 2) (e_mm d / 2) (e_kg d / 2) (e_s d / 2) (e_A d / 2)
        (e_S d / 2) (e_mS d / 2) (e_V d / 2) (e_mV d / 2).

Definition dim_eqb (d1 d2 : Dimensionality) : bool :=
  (e_m d1 =? e_m d2)%Z && (e_mm d1 =? e_mm d2)%Z && (e_kg d1 =? e_kg d2)%Z
  && (e_s d1 =? e_s d2)%Z && (e_A d1 =? e_A d2)%Z && (e_S d1 =? e_S d2)%Z
  && (e_mS d1 =? e_mS d2)%Z && (e_V d1 =? e_V d2)%Z
  && (e_mV d1 =? e_mV d2)%Z.

(** The dimensionality in SI base units: [mm] is a length,
    [V = kg*m**2/(s**3*A)] and [S = A/V], with their milli-prefixed
    forms. *)
Definition dim_simplified (d : Dimensionality) : Dimensionality :=
  let v := (e_V d + e_mV d)%Z in
  let g := (e_S d + e_mS d)%Z in
  mkDim (e_m d + e_mm d + 2 * v - 2 * g) 0
        (e_kg d + v - g)
        (e_s d - 3 * v + 3 * g)
        (e_A d - v + 2 * g)
        0 0 0 0.

(** The decimal exponent of the factor that takes a magnitude in [d] to
    the magnitude in SI base units: every milli-prefixed symbol
    contributes [-3] per exponent. *)
Definition scale10 (d : Dimensionality) : Z :=
  (-3 * (e_mm d + e_mS d + e_mV d))%Z.

(** A scalar quantity. *)
Record Quantity : Type := mkQ {
  magnitude : R;
  dimensionality : Dimensionality
}.

(** A one-dimensional array quantity: one dimensionality for all the
    elements. *)
Record QArray : Type := mkQA {
  magnitudes : list R;
  a_dimensionality : Dimensionality
}.

(** The unit symbols, each a quantity of magnitude [1]. *)
Definition m : Quantity := mkQ 1 (mkDim 1 0 0 0 0 0 0 0 0).
Definition mm : Quantity := mkQ 1 (mkDim 0 1 0 0 0 0 0 0 0).
Definition kg : Quantity := mkQ 1 (mkDim 0 0 1 0 0 0 0 0 0).
Definition s : Quantity := mkQ 1 (mkDim 0 0 0 1 0 0 0 0 0).
Definition A : Quantity := mkQ 1 (mkDim 0 0 0 0 1 0 0 0 0).
Definition S : Quantity := mkQ 1 (mkDim 0 0 0 0 0 1 0 0 0).
Definition mS : Quantity := mkQ 1 (mkDim 0 0 0 0 0 0 1 0 0).
Definition V : Quantity := mkQ 1 (mkDim 0 0 0 0 0 0 0 1 0).
Definition mV : Quantity := mkQ 1 (mkDim 0 0 0 0 0 0 0 0 1).

(** [q.units]: the unit of [q] as a quantity of magnitude [1.0]. *)
Definition units (q : Quantity) : Quantity := mkQ 1 (dimensionality q).

(** [x * q] and [q / x] for a plain number [x]. *)
Definition scalar_mul (x : R) (q : Quantity) : Quantity :=
  mkQ (x * magnitude q) (dimensionality q).

Definition div_scalar (q : Quantity) (x : R) : Quantity :=
  mkQ (magnitude q / x) (dimensionality q).

(** [-q], [abs(q)], [q1 * q2], [q1 / q2], [q ** n], [np.sqrt(q)]. *)
Definition neg (q : Quantity) : Quantity :=
  mkQ (- magnitude q) (dimensionality q).

Definition abs (q : Quantity) : Quantity :=
  mkQ (Rabs (magnitude q)) (dimensionality q).

Definition mul (q1 q2 : Quantity) : Quantity :=
  mkQ (magnitude q1 * magnitude q2)
      (dim_mul (dimensionality q1) (dimensionality q2)).

Definition div (q1 q2 : Quantity) : Quantity :=
  mkQ (magnitude q1 / magnitude q2)
      (dim_div (dimensionality q1) (dimensionality q2)).

Definition pow (q : Quantity) (n : nat) : Quantity :=
  mkQ (magnitude q ^ n) (dim_pow (dimensionality q) (Z.of_nat n)).

Definition sqrt (q : Quantity) : Quantity :=
  mkQ (R_sqrt.sqrt (magnitude q)) (dim_sqrt (dimensionality q)).

(** [q.rescale(d)]: the same physical quantity expressed in [d]; a
    [ValueError] when the two differ in dimension. *)
Definition rescale (q : Quantity) (d : Dimensionality) : result Quantity :=
  if dim_eqb (dim_simplified (dimensionality q)) (dim_simplified d)
  then OK (mkQ (magnitude q * powerRZ 10 (scale10 (dimensionality q) - scale10 d)) d)
  else Raise ValueError.

(** [q.simplified]: [q] in SI base units. *)
Definition simplified (q : Quantity) : Quantity :=
  mkQ (magnitude q * powerRZ 10 (scale10 (dimensionality q)))
      (dim_simplified (dimensionality q)).

(** [q1 + q2] and [q1 - q2]: the right operand is rescaled to the unit of
    the left one, which is the unit of the result. *)
Definition add (q1 q2 : Quantity) : result Quantity :=
  let* q2' := rescale q2 (dimensionality q1) in
  OK (mkQ (magnitude q1 + magnitude q2') (dimensionality q1)).

Definition sub (q1 q2 : Quantity) : result Quantity :=
  let* q2' := rescale q2 (dimensionality q1) in
  OK (mkQ (magnitude q1 - magnitude q2') (dimensionality q1)).

(** [q1.units == q2.units].  Both sides have magnitude [1.0]; the
    comparison rescales the right side to the unit of the left one, answers
    [False] when that fails, and compares the magnitudes otherwise, that
    is [1.0] with the conversion factor [10 ** (scale10 d2 - scale10 d1)]. *)
Definition units_eq (q1 q2 : Quantity) : bool :=
  dim_eqb (dim_simplified (dimensionality q2))
          (dim_simplified (dimensionality q1))
  && (scale10 (dimensionality q2) - scale10 (dimensionality q1) =? 0)%Z.

(** [float(q)] strips the unit. *)
Definition float (q : Quantity) : R := magnitude q.

(** [a[i]] for an array quantity. *)
Definition getitem (a : QArray) (i : nat) : result Quantity :=
  match magnitudes a !! i with
  | Some x => OK (mkQ x (a_dimensionality a))
  | None => Raise IndexError
  end.

(** [a[i] = q]: [q] is rescaled to the unit of the array. *)
Definition setitem (a : QArray) (i : nat) (q : Quantity) : result QArray :=
  let* q' := rescale q (a_dimensionality a) in
  if decide (i < length (magnitudes a))%nat
  then OK (mkQA (<[i := magnitude q']> (magnitudes a)) (a_dimensionality a))
  else Raise IndexError.

(** [np.zeros(n) * u] for a unit symbol [u]. *)
Definition zeros (n : nat) (u : Quantity) : QArray :=
  mkQA (replicate n (0 * magnitude u)) (dimensionality u).

(** [a.size]. *)
Definition size (a : QArray) : nat := length (magnitudes a).

End pq.

Import pq.

(** ** The potential kernels *)

(** [potential_of_plane(z_j, z_i, C_i, sigma)]. *)
Definition potential_of_plane (z_j z_i C_i sigma : Quantity) : result Quantity :=
  if units_eq (units z_j) (units z_i) then
    let* d := pq.sub z_j z_i in
    OK (pq.mul (pq.div (pq.neg C_i) (scalar_mul 2 sigma))
               (simplified (pq.abs d)))
  else Raise AssertionError.

(** [potential_of_disk(z_j, z_i, C_i, R_i, sigma)].  The chained comparison
    [a == b == c] is [a == b and b == c]. *)
Definition potential_of_disk (z_j z_i C_i R_i sigma : Quantity) : result Quantity :=
  if units_eq (units z_j) (units z_i) && units_eq (units z_i) (units R_i) then
    let* d := pq.sub z_j z_i in
    let* r2 := pq.add (pq.pow d 2) (pq.pow R_i 2) in
    let* d' := pq.sub z_j z_i in
    let* w := pq.sub (pq.sqrt r2) (pq.abs d') in
    OK (pq.mul (pq.div C_i (scalar_mul 2 sigma)) (simplified w))
  else Raise AssertionError.

(** [potential_of_cylinder(z_j, z_i, C_i, R_i, h_i, sigma)].

    The integrand works on the stripped floats; [1/(2*_sigma)] is a division
    of Python floats, which raises when [_sigma] is [0.0] ([quad] evaluates
    its integrand at least once).  [C_i * quad(...)] multiplies both
    components of the pair that [quad] returns, and the unpacking binds the
    first to [phi_j] and the second to [abserr], which is not used again. *)
Definition potential_of_cylinder (quad : (R -> R) -> R -> R -> R * R)
    (z_j z_i C_i R_i h_i sigma : Quantity) : result Quantity :=
  if units_eq (units z_j) (units z_i) && units_eq (units z_i) (units R_i)
     && units_eq (units R_i) (units h_i) then
    let _sigma := float sigma in
    let _R_i := float R_i in
    let _z_i := float z_i in
    let _z_j := float z_j in
    let integrand (z : R) :=
      1 / (2 * _sigma)
      * (R_sqrt.sqrt ((z - _z_j) ^ 2 + _R_i ^ 2) - Rabs (z - _z_j)) in
    let* a := pq.sub z_i (div_scalar h_i 2) in
    let* b := pq.add z_i (div_scalar h_i 2) in
    if Req_dec_T _sigma 0 then Raise ZeroDivisionError else
    let '(value, err) := quad integrand (float a) (float b) in
    let phi_j := mkQ (magnitude C_i * value) (dimensionality C_i) in
    let abserr := mkQ (magnitude C_i * err) (dimensionality C_i) in
    OK (pq.div (pq.mul phi_j (pq.pow (units z_i) 2)) (units sigma))
  else Raise AssertionError.

(** Default arguments of the kernels. *)
Definition default_z_i : Quantity := scalar_mul 0 pq.m.
Definition default_C_i_areal : Quantity :=
  pq.div (scalar_mul 1 pq.A) (pq.pow pq.m 2).
Definition default_C_i_volumetric : Quantity :=
  pq.div (scalar_mul 1 pq.A) (pq.pow pq.m 3).
Definition default_R_i : Quantity := scalar_mul 1E-3 pq.m.
Definition default_h_i : Quantity := scalar_mul 0.1 pq.m.
Definition default_sigma : Quantity := pq.div (scalar_mul 0.3 pq.S) pq.m.

(** ** The LFP synthesizers *)

(** [for i, x in enumerate(l): st = body(st, i, x)], starting at index [i];
    an exception leaves the loop. *)
Fixpoint for_enumerate {X St : Type} (body : St -> nat -> X -> result St)
    (i : nat) (l : list X) (st : St) : result St :=
  match l with
  | [] => OK st
  | x :: l' => let* st' := body st i x in for_enumerate body (Datatypes.S i) l' st'
  end.

(** Iterating over an array quantity yields scalar quantities in the unit
    of the array. *)
Definition elements (a : QArray) : list Quantity :=
  map (fun x => mkQ x (a_dimensionality a)) (magnitudes a).

(** [phi_j[j] += rhs]: the element is read, then the right-hand side is
    evaluated, then the in-place addition rescales it to the unit of the
    element, then the element is stored. *)
Definition iadd_item (phi_j : QArray) (j : nat) (rhs : result Quantity)
    : result QArray :=
  let* cur := getitem phi_j j in
  let* k := rhs in
  let* new := pq.add cur k in
  setitem phi_j j new.

(** The loop nest the three synthesizers share: sources outermost,
    electrodes innermost, [kernel i zj zi] being the call of the loop body
    for source number [i]. *)
Definition accumulate (kernel : nat -> Quantity -> Quantity -> result Quantity)
    (z_j z_i : QArray) (phi_j : QArray) : result QArray :=
  for_enumerate
    (fun phi_j i zi =>
       for_enumerate
         (fun phi_j j zj => iadd_item phi_j j (kernel i zj zi))
         0%nat (elements z_j) phi_j)
    0%nat (elements z_i) phi_j.

(** The calls in the bodies of the three loop nests, for source number
    [i]: the subscripts are evaluated first, then the kernel is called. *)
Definition plane_call (C_i : QArray) (sigma : Quantity)
    (i : nat) (zj zi : Quantity) : result Quantity :=
  let* C := getitem C_i i in
  potential_of_plane zj zi C sigma.

Definition disk_call (C_i R_i : QArray) (sigma : Quantity)
    (i : nat) (zj zi : Quantity) : result Quantity :=
  let* C := getitem C_i i in
  let* R := getitem R_i i in
  potential_of_disk zj zi C R sigma.

Definition cylinder_call (quad : (R -> R) -> R -> R -> R * R)
    (C_i R_i h_i : QArray) (sigma : Quantity)
    (i : nat) (zj zi : Quantity) : result Quantity :=
  let* C := getitem C_i i in
  let* R := getitem R_i i in
  let* h := getitem h_i i in
  potential_of_cylinder quad zj zi C R h sigma.

(** [get_lfp_of_planes(z_j, z_i, C_i, sigma, plot=False)]. *)
Definition get_lfp_of_planes (z_j z_i C_i : QArray) (sigma : Quantity)
    : result (QArray * QArray) :=
  let phi_j := zeros (size z_j) pq.V in
  let* phi_j := accumulate (plane_call C_i sigma) z_j z_i phi_j in
  OK (phi_j, C_i).

(** [get_lfp_of_disks(z_j, z_i, C_i, R_i, sigma, plot=False)]. *)
Definition get_lfp_of_disks (z_j z_i C_i R_i : QArray) (sigma : Quantity)
    : result (QArray * QArray) :=
  let phi_j := zeros (size z_j) pq.V in
  let* phi_j := accumulate (disk_call C_i R_i sigma) z_j z_i phi_j in
  OK (phi_j, C_i).

(** [get_lfp_of_cylinders(z_j, z_i, C_i, R_i, h_i, sigma, plot=False)]. *)
Definition get_lfp_of_cylinders (quad : (R -> R) -> R -> R -> R * R)
    (z_j z_i C_i R_i h_i : QArray) (sigma : Quantity)
    : result (QArray * QArray) :=
  let phi_j := zeros (size z_j) pq.V in
  let* phi_j :=
    accumulate (cylinder_call quad C_i R_i h_i sigma) z_j z_i phi_j in
  OK (phi_j, C_i).

(** ** Vocabulary of the statements *)

(** The magnitude in volts of the potential a kernel call returned (SI base
    units; [0] stands in for a call that raised, which the statements
    exclude). *)
Definition volts (r : result Quantity) : R :=
  match r with
  | OK q => magnitude (simplified q)
  | Raise _ => 0
  end.

(** [sum_upto f n] is [f 0 + ... + f (n - 1)], added in the order of the
    loop. *)
Fixpoint sum_upto (f : nat -> R) (n : nat) : R :=
  match n with
  | O => 0
  | Datatypes.S n' => sum_upto f n' + f n'
  end.

(** Source number [i] of an array quantity, as the loop sees it. *)
Definition item (a : QArray) (i : nat) : Quantity :=
  mkQ (nth i (magnitudes a) 0) (a_dimensionality a).

(** Every call of the loop nest returns a quantity that converts to
    volts. *)
Definition returns_potentials
    (call : nat -> Quantity -> Quantity -> result Quantity)
    (z_j z_i : QArray) : Prop :=
  forall (i j : nat) (zi zj : Quantity),
    elements z_i !! i = Some zi ->
    elements z_j !! j = Some zj ->
    exists k : Quantity,
      call i zj zi = OK k
      /\ dim_simplified (dimensionality k)
         = dim_simplified (dimensionality pq.V).

(** [trace] is the superposition of the calls: one value per electrode, in
    volts, each the sum over the sources of what the call returned. *)
Definition superposition_of
    (call : nat -> Quantity -> Quantity -> result Quantity)
    (z_j z_i : QArray) (trace : QArray) : Prop :=
  a_dimensionality trace = dimensionality pq.V
  /\ size trace = size z_j
  /\ forall (j : nat) (zj : Quantity),
       elements z_j !! j = Some zj ->
       magnitudes trace !! j
       = Some (sum_upto (fun i => volts (call i zj (item z_i i))) (size z_i)).

(** The elementwise sum of two traces. *)
Definition trace_add (t1 t2 : QArray) : QArray :=
  mkQA (zip_with Rplus (magnitudes t1) (magnitudes t2)) (a_dimensionality t1).

(** Adding [f j] to element [j] of an array, for every [j]. *)
Definition translate (f : nat -> R) (phi : QArray) : QArray :=
  mkQA (imap (fun j x => x + f j) (magnitudes phi)) (a_dimensionality phi).

(** Concatenation of two arrays in the same unit. *)
Definition concat (a b : QArray) : QArray :=
  mkQA (magnitudes a ++ magnitudes b) (a_dimensionality a).

(** Two quadrature routines that report the same value with different
    error estimates. *)
Definition quad_tight : (R -> R) -> R -> R -> R * R := fun _ _ _ => (1, 0).
Definition quad_loose : (R -> R) -> R -> R -> R * R := fun _ _ _ => (1, 1).

(** ** The scenario of the tests *)

(** [np.arange(n)]. *)
Definition arange (n : nat) : list R := map INR (seq 0 n).

(** [z_j = np.arange(21)*1E-4*pq.m]: the contact points, which are also the
    source positions ([z_i = z_j]). *)
Definition test_z_j : QArray :=
  mkQA (map (fun x => x * 1E-4 * magnitude pq.m) (arange 21))
       (dimensionality pq.m).

(** The ground truth of the plane and disk tests: zero except for
    [-0.5, 1.0, -0.5] at indices 7, 9 and 11, in [A/m**2]. *)
Definition test_C_i : QArray :=
  mkQA (replicate 7 0 ++ [-0.5; 0; 1; 0; -0.5] ++ replicate 9 0)
       (dimensionality default_C_i_areal).

(** A field point at [3E-4 m], one at [1 mm], and a conductivity passed in
    the place of a field point. *)
Definition z_300um : Quantity := scalar_mul 3E-4 pq.m.
Definition z_1mm : Quantity := scalar_mul 1 pq.mm.
Definition z_conductivity : Quantity := default_sigma.

(** ** Further vocabulary *)

(** [f] applied to what a call returned; an exception passes through. *)
Definition result_map {X Y : Type} (f : X -> Y) (r : result X) : result Y :=
  match r with
  | OK x => OK (f x)
  | Raise e => Raise e
  end.

(** A position moved by [t], in its own unit. *)
Definition moved (q : Quantity) (t : R) : Quantity :=
  mkQ (magnitude q + t) (dimensionality q).

(** The sum of two quantities given in one unit. *)
Definition q_plus (q1 q2 : Quantity) : Quantity :=
  mkQ (magnitude q1 + magnitude q2) (dimensionality q1).

(** The guard of the cylinder kernel. *)
Definition cylinder_guard (z_j z_i R_i h_i : Quantity) : bool :=
  units_eq (units z_j) (units z_i) && units_eq (units z_i) (units R_i)
  && units_eq (units R_i) (units h_i).

(** A call of a loop body fails with [e]: it raises [e], or, [e] being
    [ValueError], it returns a quantity that does not convert to volts. *)
Definition fails_with (r : result Quantity) (e : exception) : Prop :=
  r = Raise e
  \/ (e = ValueError
      /\ exists k : Quantity,
           r = OK k
           /\ dim_simplified (dimensionality k)
              <> dim_simplified (dimensionality pq.V)).

(** The calls that come before call [(n, j)] in the order of the loop nest
    (sources outermost) return potentials. *)
Definition returns_potentials_before
    (call : nat -> Quantity -> Quantity -> result Quantity)
    (z_j z_i : QArray) (n j : nat) : Prop :=
  forall (i' j' : nat) (zi' zj' : Quantity),
    elements z_i !! i' = Some zi' ->
    elements z_j !! j' = Some zj' ->
    (i' < n \/ (i' = n /\ j' < j))%nat ->
    exists k : Quantity,
      call i' zj' zi' = OK k
      /\ dim_simplified (dimensionality k)
         = dim_simplified (dimensionality pq.V).

(** [x * a] and [a * x] for an array quantity and a plain number, [a * u]
    and [a / u] for an array quantity and a scalar quantity. *)
Definition array_scalar_mul (x : R) (a : QArray) : QArray :=
  mkQA (map (fun y => x * y) (magnitudes a)) (a_dimensionality a).

Definition array_mul_scalar (a : QArray) (x : R) : QArray :=
  mkQA (map (fun y => y * x) (magnitudes a)) (a_dimensionality a).

Definition array_mul (a : QArray) (u : Quantity) : QArray :=
  mkQA (map (fun y => y * magnitude u) (magnitudes a))
       (dim_mul (a_dimensionality a) (dimensionality u)).

Definition array_div (a : QArray) (u : Quantity) : QArray :=
  mkQA (map (fun y => y / magnitude u) (magnitudes a))
       (dim_div (a_dimensionality a) (dimensionality u)).

(** [q * x] for a scalar quantity and a plain number. *)
Definition mul_scalar (q : Quantity) (x : R) : Quantity :=
  mkQ (magnitude q * x) (dimensionality q).

(** The re-expressions of the tests: [phi_j*1E3*pq.mV/pq.V],
    [z_j*1E3*pq.mm/pq.m] (also applied to [h_i]) and
    [sigma*1E3*pq.mS/pq.S]. *)
Definition lfp_in_millivolt (phi_j : QArray) : QArray :=
  array_div (array_mul (array_mul_scalar phi_j 1E3) pq.mV) pq.V.

Definition coord_in_millimetre (z_j : QArray) : QArray :=
  array_div (array_mul (array_mul_scalar z_j 1E3) pq.mm) pq.m.

Definition sigma_in_millisiemens (sigma : Quantity) : Quantity :=
  pq.div (pq.mul (mul_scalar sigma 1E3) pq.mS) pq.S.

(** [a[inds]] for a list of indices: the elements at these indices, in
    the order of [inds]; an index out of range raises. *)
Fixpoint gather (l : list R) (inds : list nat) : result (list R) :=
  match inds with
  | [] => OK []
  | i :: inds' =>
      match l !! i with
      | Some x => let* xs := gather l inds' in OK (x :: xs)
      | None => Raise IndexError
      end
  end.

Definition getitems (a : QArray) (inds : list nat) : result QArray :=
  let* ms := gather (magnitudes a) inds in
  OK (mkQA ms (a_dimensionality a)).

(** [np.delete(np.arange(n), k)]: the indices below [n] without [k]. *)
Definition delete_arange (n k : nat) : result (list nat) :=
  if (k <? n)%nat
  then OK (seq 0 k ++ seq (Datatypes.S k) (n - Datatypes.S k))
  else Raise IndexError.

(** The indices of the tests on a non-contiguous electrode array:
    [inds = np.delete(np.arange(21), 5)]. *)
Definition test_inds : list nat :=
  [0; 1; 2; 3; 4; 6; 7; 8; 9; 10; 11; 12; 13; 14; 15; 16; 17; 18; 19; 20]%nat.

(** The simplified elements of an array quantity. *)
Definition simplified_elements (a : QArray) : list Quantity :=
  map simplified (elements a).

(** [q] expressed in the unit [u] (what [rescale] returns when the
    dimensions agree). *)
Definition in_unit (q u : Quantity) : Quantity :=
  mkQ (magnitude q
       * powerRZ 10 (scale10 (dimensionality q) - scale10 (dimensionality u)))
      (dimensionality u).

(** The magnitudes of an array quantity in SI base units. *)
Definition si_magnitudes (a : QArray) : list R :=
  map (fun x => x * powerRZ 10 (scale10 (a_dimensionality a))) (magnitudes a).

(** Two array quantities denote the same quantities, element by element:
    same dimension and same magnitudes in SI base units. *)
Definition same_quantities (a a' : QArray) : Prop :=
  dim_simplified (a_dimensionality a') = dim_simplified (a_dimensionality a)
  /\ si_magnitudes a' = si_magnitudes a.

(** A field point at [5E-4 m], and the radii of the disk tests,
    [R_i = np.ones(21)*1E-3*pq.m]. *)
Definition z_500um : Quantity := scalar_mul 5E-4 pq.m.

Definition test_R_i : QArray :=
  mkQA (map (fun x => x * 1E-3 * magnitude pq.m) (replicate 21 1))
       (dimensionality pq.m).

(** ** Facts about units *)

Lemma dim_eqb_eq (d1 d2 : Dimensionality) : dim_eqb d1 d2 = true <-> d1 = d2.
Proof.
  destruct d1, d2; unfold dim_eqb; cbn.
  rewrite !andb_true_iff, !Z.eqb_eq.
  split; [intros; f_equal; tauto | intros [= -> -> -> -> -> -> -> -> ->]; tauto].
Qed.

Lemma dim_eqb_refl (d : Dimensionality) : dim_eqb d d = true.
Proof. now apply dim_eqb_eq. Qed.

(** Two quantities have equal units (in the sense of the kernels' guard)
    exactly when they agree in SI dimension and in decimal scale. *)
Lemma units_eq_spec (a b : Quantity) :
  units_eq (units a) (units b) = true <->
  dim_simplified (dimensionality a) = dim_simplified (dimensionality b)
  /\ scale10 (dimensionality a) = scale10 (dimensionality b).
Proof.
  unfold units_eq, units; cbn.
  rewrite andb_true_iff, dim_eqb_eq, Z.eqb_eq.
  split; intros [H1 H2]; split; auto; lia.
Qed.

Lemma units_eq_sym (a b : Quantity) :
  units_eq (units a) (units b) = units_eq (units b) (units a).
Proof.
  apply eq_true_iff_eq. rewrite !units_eq_spec.
  split; intros [H1 H2]; split; congruence.
Qed.

Lemma ten_neq_0 : 10 <> 0.
Proof. lra. Qed.

Lemma ten_pow_pos (k : Z) : 0 < powerRZ 10 k.
Proof. apply powerRZ_lt; lra. Qed.

Lemma ten_pow_sub (a b : Z) : powerRZ 10 (a - b) = powerRZ 10 a / powerRZ 10 b.
Proof.
  unfold Z.sub, Rdiv.
  rewrite powerRZ_add by apply ten_neq_0.
  now rewrite powerRZ_neg'.
Qed.

Lemma scale10_simplified (d : Dimensionality) : scale10 (dim_simplified d) = 0%Z.
Proof. reflexivity. Qed.

Lemma dim_simplified_idem (d : Dimensionality) :
  dim_simplified (dim_simplified d) = dim_simplified d.
Proof. destruct d; unfold dim_simplified; cbn. f_equal; lia. Qed.

Lemma scale10_mul (d1 d2 : Dimensionality) :
  scale10 (dim_mul d1 d2) = (scale10 d1 + scale10 d2)%Z.
Proof. unfold scale10, dim_mul; cbn; lia. Qed.

Lemma scale10_div (d1 d2 : Dimensionality) :
  scale10 (dim_div d1 d2) = (scale10 d1 - scale10 d2)%Z.
Proof. unfold scale10, dim_div; cbn; lia. Qed.

Lemma scale10_pow (d : Dimensionality) (n : Z) :
  scale10 (dim_pow d n) = (scale10 d * n)%Z.
Proof. unfold scale10, dim_pow; cbn; lia. Qed.

Lemma dim_simplified_mul (d1 d2 : Dimensionality) :
  dim_simplified (dim_mul d1 d2)
  = dim_mul (dim_simplified d1) (dim_simplified d2).
Proof. unfold dim_simplified, dim_mul; cbn; f_equal; lia. Qed.

Lemma dim_simplified_div (d1 d2 : Dimensionality) :
  dim_simplified (dim_div d1 d2)
  = dim_div (dim_simplified d1) (dim_simplified d2).
Proof. unfold dim_simplified, dim_div; cbn; f_equal; lia. Qed.

Lemma dim_simplified_pow (d : Dimensionality) (n : Z) :
  dim_simplified (dim_pow d n) = dim_pow (dim_simplified d) n.
Proof. unfold dim_simplified, dim_pow; cbn; f_equal; lia. Qed.

Lemma dim_sqrt_square (d : Dimensionality) : dim_sqrt (dim_pow d 2) = d.
Proof.
  destruct d; unfold dim_sqrt, dim_pow; cbn [e_m e_mm e_kg e_s e_A e_S e_mS e_V e_mV].
  f_equal; apply Z.div_mul; lia.
Qed.

(** Rescaling between equal units changes nothing. *)
Lemma rescale_units_eq (a b : Quantity) :
  units_eq (units a) (units b) = true ->
  rescale b (dimensionality a) = OK (mkQ (magnitude b) (dimensionality a)).
Proof.
  intros [Hd Hs]%units_eq_spec. unfold rescale.
  rewrite Hd, dim_eqb_refl, Hs, Z.sub_diag. cbn [powerRZ].
  now rewrite Rmult_1_r.
Qed.

Lemma rescale_same (q : Quantity) (d : Dimensionality) :
  dimensionality q = d -> rescale q d = OK (mkQ (magnitude q) d).
Proof.
  intros <-. unfold rescale.
  rewrite dim_eqb_refl, Z.sub_diag. cbn [powerRZ].
  now rewrite Rmult_1_r.
Qed.

Lemma sub_units_eq (a b : Quantity) :
  units_eq (units a) (units b) = true ->
  pq.sub a b = OK (mkQ (magnitude a - magnitude b) (dimensionality a)).
Proof. intros H. unfold pq.sub. now rewrite (rescale_units_eq a b H). Qed.

Lemma add_units_eq (a b : Quantity) :
  units_eq (units a) (units b) = true ->
  pq.add a b = OK (mkQ (magnitude a + magnitude b) (dimensionality a)).
Proof. intros H. unfold pq.add. now rewrite (rescale_units_eq a b H). Qed.

(** The magnitude in SI base units distributes over the arithmetic of
    quantities. *)
Lemma si_mul (a b : Quantity) :
  magnitude (simplified (pq.mul a b))
  = magnitude (simplified a) * magnitude (simplified b).
Proof.
  cbn. rewrite scale10_mul, powerRZ_add by apply ten_neq_0. ring.
Qed.

Lemma si_div (a b : Quantity) :
  magnitude (simplified (pq.div a b))
  = magnitude (simplified a) / magnitude (simplified b).
Proof.
  cbn. rewrite scale10_div, ten_pow_sub. unfold Rdiv.
  rewrite !Rinv_mult. ring.
Qed.

Lemma si_simplified (a : Quantity) :
  magnitude (simplified (simplified a)) = magnitude (simplified a).
Proof.
  unfold simplified; cbn [magnitude dimensionality].
  rewrite scale10_simplified; cbn [powerRZ]. ring.
Qed.

Lemma si_abs (a : Quantity) :
  magnitude (simplified (pq.abs a)) = Rabs (magnitude (simplified a)).
Proof.
  cbn. rewrite Rabs_mult, (Rabs_pos_eq (powerRZ _ _)); auto.
  left; apply ten_pow_pos.
Qed.

Lemma units_eq_trans (a b c : Quantity) :
  units_eq (units a) (units b) = true ->
  units_eq (units b) (units c) = true ->
  units_eq (units a) (units c) = true.
Proof.
  rewrite !units_eq_spec. intros [H1 H2] [H3 H4]; split; congruence.
Qed.

Lemma units_eq_pow (a b : Quantity) (n : nat) :
  units_eq (units a) (units b) = true ->
  units_eq (units (pq.pow a n)) (units (pq.pow b n)) = true.
Proof.
  rewrite !units_eq_spec. cbn [pq.pow dimensionality].
  rewrite !dim_simplified_pow, !scale10_pow. intros [-> ->]; now split.
Qed.

Lemma si_scalar_mul (x : R) (a : Quantity) :
  magnitude (simplified (scalar_mul x a)) = x * magnitude (simplified a).
Proof. cbn. ring. Qed.

Lemma si_neg (a : Quantity) :
  magnitude (simplified (pq.neg a)) = - magnitude (simplified a).
Proof. cbn. ring. Qed.

(** What the plane kernel returns once its guard is passed. *)
Lemma potential_of_plane_value (z_j z_i C_i sigma : Quantity) :
  units_eq (units z_j) (units z_i) = true ->
  potential_of_plane z_j z_i C_i sigma
  = OK (pq.mul (pq.div (pq.neg C_i) (scalar_mul 2 sigma))
               (simplified
                  (pq.abs (mkQ (magnitude z_j - magnitude z_i)
                               (dimensionality z_j))))).
Proof.
  intros H. unfold potential_of_plane. rewrite H, (sub_units_eq _ _ H).
  reflexivity.
Qed.

(** What the disk kernel returns once its guard is passed. *)
Lemma potential_of_disk_value (z_j z_i C_i R_i sigma : Quantity) :
  units_eq (units z_j) (units z_i) = true ->
  units_eq (units z_i) (units R_i) = true ->
  potential_of_disk z_j z_i C_i R_i sigma
  = OK (pq.mul (pq.div C_i (scalar_mul 2 sigma))
               (simplified
                  (mkQ (R_sqrt.sqrt ((magnitude z_j - magnitude z_i) ^ 2
                                     + magnitude R_i ^ 2)
                        - Rabs (magnitude z_j - magnitude z_i))
                       (dimensionality z_j)))).
Proof.
  intros H1 H2. unfold potential_of_disk.
  rewrite H1, H2, (sub_units_eq _ _ H1). cbn [andb bind].
  pose proof (units_eq_trans _ _ _ H1 H2) as H3.
  rewrite (add_units_eq
             (pq.pow (mkQ (magnitude z_j - magnitude z_i) (dimensionality z_j)) 2)
             (pq.pow R_i 2))
    by (apply units_eq_pow; exact H3).
  cbn [bind]. unfold pq.sub.
  rewrite rescale_same
    by (cbn [pq.sqrt pq.pow pq.abs dimensionality]; now rewrite dim_sqrt_square).
  cbn [bind pq.sqrt pq.pow pq.abs magnitude dimensionality Z.of_nat Pos.of_succ_nat Pos.succ].
  now rewrite dim_sqrt_square.
Qed.

(** C3.  When [z_j] and [z_i] carry the same unit, [potential_of_plane]
    returns a potential which, in simplified (SI base) units, is
    [-C_i/(2*sigma)*|z_j - z_i|] for every density [C_i] and conductivity
    [sigma]; its dimension is that of density times length over
    conductivity, and it is zero when the field point lies on the source
    plane. *)
Theorem potential_of_plane_closed_form (z_j z_i C_i sigma : Quantity) :
  units_eq (units z_j) (units z_i) = true ->
  exists phi : Quantity,
    potential_of_plane z_j z_i C_i sigma = OK phi
    /\ magnitude (simplified phi)
       = - magnitude (simplified C_i) / (2 * magnitude (simplified sigma))
         * Rabs (magnitude (simplified z_j) - magnitude (simplified z_i))
    /\ dimensionality (simplified phi)
       = dim_simplified
           (dim_mul (dim_div (dimensionality C_i) (dimensionality sigma))
                    (dimensionality z_j))
    /\ (magnitude z_j = magnitude z_i -> magnitude phi = 0).
Proof.
  intros H. eexists. split; [apply potential_of_plane_value, H|].
  pose proof H as [Hd Hs]%units_eq_spec.
  split; [|split].
  - rewrite si_mul, si_div, si_neg, si_scalar_mul, si_simplified, si_abs.
    f_equal. f_equal. cbn [simplified magnitude dimensionality].
    rewrite Hs. ring.
  - cbn [simplified pq.mul pq.div pq.neg scalar_mul pq.abs dimensionality].
    rewrite !dim_simplified_mul, dim_simplified_idem. reflexivity.
  - intros E. cbn [pq.mul pq.div pq.neg scalar_mul pq.abs simplified magnitude].
    rewrite E, Rminus_diag, Rabs_R0. ring.
Qed.

(** C4.  When [z_j], [z_i] and [R_i] carry the same unit,
    [potential_of_disk] returns a potential which, in simplified (SI base)
    units, is [C_i/(2*sigma)*(sqrt((z_j - z_i)^2 + R_i^2) - |z_j - z_i|)]
    for every density [C_i] and conductivity [sigma]. *)
Theorem potential_of_disk_closed_form (z_j z_i C_i R_i sigma : Quantity) :
  units_eq (units z_j) (units z_i) = true ->
  units_eq (units z_i) (units R_i) = true ->
  exists phi : Quantity,
    potential_of_disk z_j z_i C_i R_i sigma = OK phi
    /\ magnitude (simplified phi)
       = magnitude (simplified C_i) / (2 * magnitude (simplified sigma))
         * (R_sqrt.sqrt
              ((magnitude (simplified z_j) - magnitude (simplified z_i)) ^ 2
               + magnitude (simplified R_i) ^ 2)
            - Rabs (magnitude (simplified z_j) - magnitude (simplified z_i)))
    /\ dimensionality (simplified phi)
       = dim_simplified
           (dim_mul (dim_div (dimensionality C_i) (dimensionality sigma))
                    (dimensionality z_j)).
Proof.
  intros H1 H2. eexists. split; [apply potential_of_disk_value; assumption|].
  pose proof H1 as [Hd1 Hs1]%units_eq_spec.
  pose proof H2 as [Hd2 Hs2]%units_eq_spec.
  split.
  - rewrite si_mul, si_div, si_scalar_mul, si_simplified.
    f_equal. cbn [simplified magnitude dimensionality].
    rewrite <- Hs2, <- Hs1.
    set (p := powerRZ 10 (scale10 (dimensionality z_j))).
    assert (Hp : 0 < p) by apply ten_pow_pos.
    replace ((magnitude z_j * p - magnitude z_i * p) ^ 2 + (magnitude R_i * p) ^ 2)
      with (((magnitude z_j - magnitude z_i) ^ 2 + magnitude R_i ^ 2) * (p * p))
      by ring.
    rewrite sqrt_mult_alt
      by (apply Rplus_le_le_0_compat; apply pow2_ge_0).
    rewrite sqrt_square by lra.
    replace (magnitude z_j * p - magnitude z_i * p)
      with ((magnitude z_j - magnitude z_i) * p) by ring.
    rewrite Rabs_mult, (Rabs_pos_eq p) by lra. ring.
  - cbn [simplified pq.mul pq.div scalar_mul dimensionality].
    rewrite !dim_simplified_mul, dim_simplified_idem. reflexivity.
Qed.

(** What the cylinder kernel returns once its guard is passed and the
    conductivity is not zero. *)
Lemma potential_of_cylinder_value (quad : (R -> R) -> R -> R -> R * R)
    (z_j z_i C_i R_i h_i sigma : Quantity) :
  units_eq (units z_j) (units z_i) = true ->
  units_eq (units z_i) (units R_i) = true ->
  units_eq (units R_i) (units h_i) = true ->
  magnitude sigma <> 0 ->
  potential_of_cylinder quad z_j z_i C_i R_i h_i sigma
  = OK (mkQ (magnitude C_i
             * fst (quad (fun z =>
                            1 / (2 * magnitude sigma)
                            * (R_sqrt.sqrt ((z - magnitude z_j) ^ 2
                                            + magnitude R_i ^ 2)
                               - Rabs (z - magnitude z_j)))
                         (magnitude z_i - magnitude h_i / 2)
                         (magnitude z_i + magnitude h_i / 2)))
            (dim_div (dim_mul (dimensionality C_i)
                              (dim_pow (dimensionality z_i) 2))
                     (dimensionality sigma))).
Proof.
  intros H1 H2 H3 Hs. unfold potential_of_cylinder.
  rewrite H1, H2, H3. cbn [andb].
  pose proof (units_eq_trans _ _ _ H2 H3) as H4.
  rewrite (sub_units_eq z_i (div_scalar h_i 2)) by exact H4.
  rewrite (add_units_eq z_i (div_scalar h_i 2)) by exact H4.
  unfold float. cbn [bind magnitude div_scalar].
  destruct (Req_dec_T (magnitude sigma) 0) as [E|_]; [contradiction|].
  destruct (quad _ _ _) as [value err]. cbn [fst].
  unfold pq.div, pq.mul, pq.pow, units. cbn [magnitude dimensionality Z.of_nat Pos.of_succ_nat Pos.succ].
  do 2 f_equal. field.
Qed.

(** C5.  The cylinder kernel hands [quad] an integrand over plain real
    numbers (the stripped magnitudes), and returns [C_i] times the value of
    the quadrature of [1/(2*sigma)*(sqrt((z - z_j)^2 + R_i^2) - |z - z_j|)]
    from [z_i - h_i/2] to [z_i + h_i/2], in the unit of [C_i] times the
    square of the unit of [z_i] over the unit of [sigma]. *)
Theorem potential_of_cylinder_unit_and_magnitude
    (quad : (R -> R) -> R -> R -> R * R)
    (z_j z_i C_i R_i h_i sigma : Quantity) :
  units_eq (units z_j) (units z_i) = true ->
  units_eq (units z_i) (units R_i) = true ->
  units_eq (units R_i) (units h_i) = true ->
  magnitude sigma <> 0 ->
  exists phi : Quantity,
    potential_of_cylinder quad z_j z_i C_i R_i h_i sigma = OK phi
    /\ dimensionality phi
       = dimensionality
           (pq.div (pq.mul (units C_i) (pq.pow (units z_i) 2)) (units sigma))
    /\ magnitude phi
       = magnitude C_i
         * fst (quad (fun z : R =>
                        1 / (2 * magnitude sigma)
                        * (R_sqrt.sqrt ((z - magnitude z_j) ^ 2
                                        + magnitude R_i ^ 2)
                           - Rabs (z - magnitude z_j)))
                     (magnitude z_i - magnitude h_i / 2)
                     (magnitude z_i + magnitude h_i / 2)).
Proof.
  intros H1 H2 H3 Hs. eexists. split.
  - apply potential_of_cylinder_value; assumption.
  - split; reflexivity.
Qed.

(** C6.  A field point whose dimension differs from that of the source
    position makes each of the three kernels raise at its guard, whatever
    the other arguments and whatever the quadrature routine: nothing is
    computed. *)
Theorem kernels_reject_dimension_mismatch
    (quad : (R -> R) -> R -> R -> R * R)
    (z_j z_i C_i R_i h_i sigma : Quantity) :
  dim_simplified (dimensionality z_j) <> dim_simplified (dimensionality z_i) ->
  potential_of_plane z_j z_i C_i sigma = Raise AssertionError
  /\ potential_of_disk z_j z_i C_i R_i sigma = Raise AssertionError
  /\ potential_of_cylinder quad z_j z_i C_i R_i h_i sigma = Raise AssertionError.
Proof.
  intros Hne.
  assert (H : units_eq (units z_j) (units z_i) = false).
  { apply not_true_is_false. intros [Hd _]%units_eq_spec. contradiction. }
  unfold potential_of_plane, potential_of_disk, potential_of_cylinder.
  rewrite H. cbn [andb]. auto.
Qed.

(** C7, as the program has it.  Addition and subtraction of two quantities
    of the same dimension and different scale rescale the right operand and
    are exact in SI base units; the kernels, however, compare the units of
    their positional arguments for equality, scale included, and raise at
    the guard when the field point and the source position differ in
    scale. *)
Theorem same_dimension_different_scale
    (quad : (R -> R) -> R -> R -> R * R)
    (z_j z_i C_i R_i h_i sigma : Quantity) :
  dim_simplified (dimensionality z_j) = dim_simplified (dimensionality z_i) ->
  scale10 (dimensionality z_j) <> scale10 (dimensionality z_i) ->
  (exists d : Quantity,
      pq.sub z_j z_i = OK d
      /\ dimensionality d = dimensionality z_j
      /\ magnitude (simplified d)
         = magnitude (simplified z_j) - magnitude (simplified z_i))
  /\ (exists a : Quantity,
      pq.add z_j z_i = OK a
      /\ dimensionality a = dimensionality z_j
      /\ magnitude (simplified a)
         = magnitude (simplified z_j) + magnitude (simplified z_i))
  /\ potential_of_plane z_j z_i C_i sigma = Raise AssertionError
  /\ potential_of_disk z_j z_i C_i R_i sigma = Raise AssertionError
  /\ potential_of_cylinder quad z_j z_i C_i R_i h_i sigma = Raise AssertionError.
Proof.
  intros Hd Hs.
  assert (Hr : rescale z_i (dimensionality z_j)
               = OK (mkQ (magnitude z_i
                          * powerRZ 10 (scale10 (dimensionality z_i)
                                        - scale10 (dimensionality z_j)))
                         (dimensionality z_j))).
  { unfold rescale. now rewrite Hd, dim_eqb_refl. }
  assert (Hm : forall x : R,
             x * powerRZ 10 (scale10 (dimensionality z_i)
                             - scale10 (dimensionality z_j))
             * powerRZ 10 (scale10 (dimensionality z_j))
             = x * powerRZ 10 (scale10 (dimensionality z_i))).
  { intros x. rewrite ten_pow_sub. field.
    apply Rgt_not_eq, ten_pow_pos. }
  assert (H : units_eq (units z_j) (units z_i) = false).
  { apply not_true_is_false. intros [_ Hs']%units_eq_spec. contradiction. }
  repeat split.
  - eexists. unfold pq.sub. rewrite Hr. cbn [bind]. repeat split.
    cbn [simplified magnitude dimensionality].
    rewrite Rmult_minus_distr_r, Hm. reflexivity.
  - eexists. unfold pq.add. rewrite Hr. cbn [bind]. repeat split.
    cbn [simplified magnitude dimensionality].
    rewrite Rmult_plus_distr_r, Hm. reflexivity.
  - unfold potential_of_plane. now rewrite H.
  - unfold potential_of_disk. now rewrite H.
  - unfold potential_of_cylinder. now rewrite H.
Qed.

(** C9, as the program has it.  Whatever error estimate the quadrature
    reports (in particular one above the requested tolerance), the cylinder
    kernel returns the approximate potential and does not fail; the
    estimate itself is dropped: two routines that agree on the value and
    disagree on the estimate give the same result. *)
Theorem potential_of_cylinder_ignores_abserr
    (quad quad' : (R -> R) -> R -> R -> R * R)
    (z_j z_i C_i R_i h_i sigma : Quantity) :
  units_eq (units z_j) (units z_i) = true ->
  units_eq (units z_i) (units R_i) = true ->
  units_eq (units R_i) (units h_i) = true ->
  magnitude sigma <> 0 ->
  (forall f a b, fst (quad' f a b) = fst (quad f a b)) ->
  exists phi : Quantity,
    potential_of_cylinder quad z_j z_i C_i R_i h_i sigma = OK phi
    /\ potential_of_cylinder quad' z_j z_i C_i R_i h_i sigma = OK phi
    /\ magnitude phi
       = magnitude C_i
         * fst (quad (fun z : R =>
                        1 / (2 * magnitude sigma)
                        * (R_sqrt.sqrt ((z - magnitude z_j) ^ 2
                                        + magnitude R_i ^ 2)
                           - Rabs (z - magnitude z_j)))
                     (magnitude z_i - magnitude h_i / 2)
                     (magnitude z_i + magnitude h_i / 2)).
Proof.
  intros H1 H2 H3 Hs Hq. eexists. split; [|split].
  - apply potential_of_cylinder_value; assumption.
  - rewrite potential_of_cylinder_value by assumption. now rewrite Hq.
  - reflexivity.
Qed.

(** C10.  When [z_j] and [z_i] carry the same unit, swapping them does not
    change what [potential_of_plane] and [potential_of_disk] return, for
    any density, radius and conductivity; the plane kernel returns a
    potential, and so does the disk kernel when the radius is in that unit
    too. *)
Theorem kernels_symmetric_in_positions (z_j z_i C_i R_i sigma : Quantity) :
  units_eq (units z_j) (units z_i) = true ->
  (exists phi : Quantity,
      potential_of_plane z_j z_i C_i sigma = OK phi
      /\ potential_of_plane z_i z_j C_i sigma = OK phi)
  /\ potential_of_disk z_j z_i C_i R_i sigma
     = potential_of_disk z_i z_j C_i R_i sigma
  /\ (units_eq (units z_i) (units R_i) = true ->
      exists phi : Quantity, potential_of_disk z_j z_i C_i R_i sigma = OK phi).
Proof.
  intros H.
  pose proof H as H'. rewrite units_eq_sym in H'.
  pose proof H as [Hd Hs]%units_eq_spec.
  split; [|split].
  - eexists. split; [apply potential_of_plane_value, H|].
    rewrite potential_of_plane_value by exact H'.
    unfold simplified, pq.abs. cbn [magnitude dimensionality].
    now rewrite Hd, Hs, Rabs_minus_sym.
  - destruct (units_eq (units z_i) (units R_i)) eqn:HR.
    + pose proof (units_eq_trans _ _ _ H HR) as HR'.
      rewrite !potential_of_disk_value by assumption.
      unfold simplified. cbn [magnitude dimensionality].
      rewrite Hd, Hs, (Rabs_minus_sym (magnitude z_i)).
      replace ((magnitude z_i - magnitude z_j) ^ 2)
        with ((magnitude z_j - magnitude z_i) ^ 2) by ring.
      reflexivity.
    + assert (HR' : units_eq (units z_j) (units R_i) = false).
      { apply not_true_is_false. intros E.
        rewrite (units_eq_trans _ _ _ H' E) in HR. discriminate. }
      unfold potential_of_disk. rewrite H, H', HR, HR'. reflexivity.
  - intros HR. eexists. apply potential_of_disk_value; assumption.
Qed.

(** ** The loops *)

Lemma bind_OK {X Y : Type} (r : result X) (k : X -> result Y) (y : Y) :
  bind r k = OK y -> exists x, r = OK x /\ k x = OK y.
Proof. destruct r as [x|e]; cbn; [eauto | discriminate]. Qed.

Lemma for_enumerate_app {X St : Type} (body : St -> nat -> X -> result St)
    (l1 l2 : list X) (i : nat) (st : St) :
  for_enumerate body i (l1 ++ l2) st
  = let* st' := for_enumerate body i l1 st in
    for_enumerate body (i + length l1) l2 st'.
Proof.
  revert i st. induction l1 as [|x l1 IH]; intros i st; cbn.
  - now rewrite Nat.add_0_r.
  - destruct (body st i x) as [st'|e]; cbn; [|reflexivity].
    rewrite IH. now rewrite Nat.add_succ_r.
Qed.

Lemma for_enumerate_ext {X St : Type}
    (body1 body2 : St -> nat -> X -> result St) (l : list X) (i : nat) (st : St) :
  (forall st' j x, l !! j = Some x -> body1 st' (i + j)%nat x = body2 st' (i + j)%nat x) ->
  for_enumerate body1 i l st = for_enumerate body2 i l st.
Proof.
  revert i st. induction l as [|x l IH]; intros i st H; cbn; [reflexivity|].
  pose proof (H st 0%nat x eq_refl) as H0.
  rewrite Nat.add_0_r in H0. rewrite <- H0.
  destruct (body1 st i x) as [st'|e]; cbn; [|reflexivity].
  apply IH. intros st'' j y Hj.
  replace (Datatypes.S i + j)%nat with (i + Datatypes.S j)%nat by lia.
  now apply H.
Qed.

Lemma for_enumerate_shift {X St : Type} (body : St -> nat -> X -> result St)
    (l : list X) (n i : nat) (st : St) :
  for_enumerate body (n + i) l st
  = for_enumerate (fun st' i' x => body st' (n + i')%nat x) i l st.
Proof.
  revert i st. induction l as [|x l IH]; intros i st; cbn; [reflexivity|].
  destruct (body st (n + i)%nat x) as [st'|e]; cbn; [|reflexivity].
  now rewrite <- IH, Nat.add_succ_r.
Qed.

(** A property of the state that every iteration keeps is kept by the
    loop. *)
Lemma for_enumerate_invariant {X St : Type} (P : St -> Prop)
    (body : St -> nat -> X -> result St) (l : list X) (i : nat) (st st' : St) :
  (forall s j x s', P s -> body s j x = OK s' -> P s') ->
  P st -> for_enumerate body i l st = OK st' -> P st'.
Proof.
  intros Hbody. revert i st. induction l as [|x l IH]; intros i st HP; cbn.
  - now intros [= <-].
  - intros (s & Hs & Hrest)%bind_OK. eapply IH; [|exact Hrest]. eauto.
Qed.

(** A transformation of the state that commutes with every iteration
    commutes with the loop. *)
Lemma for_enumerate_commute {X St : Type} (T : St -> St)
    (body : St -> nat -> X -> result St) (l : list X) (i : nat) (st : St) :
  (forall s j x, body (T s) j x = let* s' := body s j x in OK (T s')) ->
  for_enumerate body i l (T st)
  = let* st' := for_enumerate body i l st in OK (T st').
Proof.
  intros Hbody. revert i st. induction l as [|x l IH]; intros i st; cbn.
  - reflexivity.
  - rewrite Hbody. destruct (body st i x) as [s'|e]; cbn; [apply IH | reflexivity].
Qed.

(** [phi_j[j] += rhs] keeps the unit and the size of [phi_j]. *)
Lemma iadd_item_shape (phi phi' : QArray) (j : nat) (rhs : result Quantity) :
  iadd_item phi j rhs = OK phi' ->
  a_dimensionality phi' = a_dimensionality phi /\ size phi' = size phi.
Proof.
  unfold iadd_item.
  intros (cur & _ & (k & _ & (new & _ & H)%bind_OK)%bind_OK)%bind_OK.
  unfold setitem in H. apply bind_OK in H as (q' & _ & H).
  destruct (decide _); [|discriminate].
  injection H as <-. unfold size; cbn. now rewrite length_insert.
Qed.

Lemma accumulate_shape (call : nat -> Quantity -> Quantity -> result Quantity)
    (z_j z_i phi phi' : QArray) :
  accumulate call z_j z_i phi = OK phi' ->
  a_dimensionality phi' = a_dimensionality phi /\ size phi' = size phi.
Proof.
  unfold accumulate.
  apply (for_enumerate_invariant
           (fun s => a_dimensionality s = a_dimensionality phi
                     /\ size s = size phi)); [|auto].
  intros s i zi s' Hs.
  apply (for_enumerate_invariant
           (fun s => a_dimensionality s = a_dimensionality phi
                     /\ size s = size phi)); [|auto].
  intros t j zj t' [Ht1 Ht2] [E1 E2]%iadd_item_shape. split; congruence.
Qed.

(** [phi_j[j] += rhs] commutes with a translation of [phi_j]. *)
Lemma iadd_item_translate (f : nat -> R) (phi : QArray) (j : nat)
    (rhs : result Quantity) :
  iadd_item (translate f phi) j rhs
  = let* phi' := iadd_item phi j rhs in OK (translate f phi').
Proof.
  unfold iadd_item, getitem, translate. cbn [magnitudes a_dimensionality].
  rewrite list_lookup_imap.
  destruct (magnitudes phi !! j) as [x|] eqn:Hx; cbn; [|reflexivity].
  destruct rhs as [k|e]; cbn; [|reflexivity].
  unfold pq.add. cbn [dimensionality magnitude].
  destruct (rescale k (a_dimensionality phi)) as [k'|e]; cbn; [|reflexivity].
  unfold setitem. cbn [magnitudes a_dimensionality dimensionality magnitude].
  rewrite !rescale_same by reflexivity. cbn [bind magnitude].
  rewrite length_imap.
  destruct (decide (j < length (magnitudes phi))%nat) as [Hlt|Hge]; cbn;
    [|reflexivity].
  do 2 f_equal. apply list_eq. intros n.
  rewrite list_lookup_imap.
  destruct (decide (j = n)) as [<-|Hne].
  - rewrite !list_lookup_insert_eq by (rewrite ?length_imap; lia).
    cbn. f_equal. ring.
  - rewrite !list_lookup_insert_ne by exact Hne.
    now rewrite list_lookup_imap.
Qed.

Lemma accumulate_translate (f : nat -> R)
    (call : nat -> Quantity -> Quantity -> result Quantity)
    (z_j z_i phi : QArray) :
  accumulate call z_j z_i (translate f phi)
  = let* phi' := accumulate call z_j z_i phi in OK (translate f phi').
Proof.
  unfold accumulate. apply for_enumerate_commute. intros s i zi.
  apply for_enumerate_commute. intros t j zj. apply iadd_item_translate.
Qed.

Lemma accumulate_concat (call : nat -> Quantity -> Quantity -> result Quantity)
    (z_j a b phi : QArray) :
  a_dimensionality b = a_dimensionality a ->
  accumulate call z_j (concat a b) phi
  = let* phi' := accumulate call z_j a phi in
    accumulate (fun i => call (size a + i)%nat) z_j b phi'.
Proof.
  intros Hd. unfold accumulate, concat, elements.
  cbn [magnitudes a_dimensionality].
  rewrite map_app, for_enumerate_app, Hd.
  destruct (for_enumerate _ 0%nat (map _ (magnitudes a)) phi) as [phi'|e];
    cbn [bind]; [|reflexivity].
  rewrite length_map. unfold size.
  replace (0 + length (magnitudes a))%nat
    with (length (magnitudes a) + 0)%nat by lia.
  now rewrite for_enumerate_shift.
Qed.

Lemma accumulate_ext (call1 call2 : nat -> Quantity -> Quantity -> result Quantity)
    (z_j z_i phi : QArray) :
  (forall i zj zi, (i < size z_i)%nat -> call1 i zj zi = call2 i zj zi) ->
  accumulate call1 z_j z_i phi = accumulate call2 z_j z_i phi.
Proof.
  intros H. unfold accumulate. apply for_enumerate_ext.
  intros st i zi Hi. cbn [Nat.add].
  apply lookup_lt_Some in Hi. unfold elements in Hi. rewrite length_map in Hi.
  apply for_enumerate_ext. intros st' j zj _. cbn [Nat.add].
  now rewrite H.
Qed.

(** A trace of zeros translated by the elements of [t] is [t]. *)
Lemma translate_zeros (t : QArray) (n : nat) :
  a_dimensionality t = dimensionality pq.V -> size t = n ->
  translate (fun j => nth j (magnitudes t) 0) (zeros n pq.V) = t.
Proof.
  destruct t as [l d]. unfold size, translate, zeros. cbn. intros -> <-.
  f_equal. apply list_eq. intros j. rewrite list_lookup_imap.
  destruct (l !! j) as [x|] eqn:Hx.
  - rewrite lookup_replicate_2 by (now apply lookup_lt_Some in Hx). cbn.
    rewrite (nth_lookup_Some _ _ _ _ Hx). f_equal. ring.
  - apply lookup_ge_None in Hx.
    rewrite lookup_ge_None_2 by (rewrite length_replicate; lia). reflexivity.
Qed.

Lemma translate_trace_add (t1 t2 : QArray) :
  a_dimensionality t2 = a_dimensionality t1 -> size t2 = size t1 ->
  translate (fun j => nth j (magnitudes t1) 0) t2 = trace_add t1 t2.
Proof.
  destruct t1 as [l1 d1], t2 as [l2 d2]. unfold size, translate, trace_add.
  cbn. intros -> Hlen. f_equal. apply list_eq. intros j.
  rewrite list_lookup_imap, lookup_zip_with.
  destruct (l2 !! j) as [y|] eqn:Hy; cbn.
  - destruct (lookup_lt_is_Some_2 l1 j) as [x Hx].
    { apply lookup_lt_Some in Hy. lia. }
    rewrite Hx, (nth_lookup_Some _ _ _ _ Hx). cbn. f_equal. ring.
  - destruct (l1 !! j); reflexivity.
Qed.

(** The trace of two lists of sources, one after the other, is the sum of
    the traces of each, exceptions included. *)
Lemma accumulate_additive (call : nat -> Quantity -> Quantity -> result Quantity)
    (z_j a b : QArray) :
  a_dimensionality b = a_dimensionality a ->
  accumulate call z_j (concat a b) (zeros (size z_j) pq.V)
  = let* t1 := accumulate call z_j a (zeros (size z_j) pq.V) in
    let* t2 := accumulate (fun i => call (size a + i)%nat) z_j b
                          (zeros (size z_j) pq.V) in
    OK (trace_add t1 t2).
Proof.
  intros Hd. rewrite accumulate_concat by exact Hd.
  destruct (accumulate call z_j a _) as [t1|e] eqn:H1; cbn; [|reflexivity].
  apply accumulate_shape in H1 as [Hd1 Hs1].
  assert (Hz : size (zeros (size z_j) pq.V) = size z_j).
  { unfold size, zeros; cbn. apply length_replicate. }
  change (a_dimensionality (zeros (size z_j) pq.V))
    with (dimensionality pq.V) in Hd1.
  rewrite <- (translate_zeros t1 (size z_j)) at 1 by congruence.
  rewrite accumulate_translate.
  destruct (accumulate _ z_j b _) as [t2|e] eqn:H2; cbn; [|reflexivity].
  apply accumulate_shape in H2 as [Hd2 Hs2].
  change (a_dimensionality (zeros (size z_j) pq.V))
    with (dimensionality pq.V) in Hd2.
  rewrite translate_trace_add by congruence. reflexivity.
Qed.

Lemma sum_upto_ext (f g : nat -> R) (n : nat) :
  (forall i, (i < n)%nat -> f i = g i) -> sum_upto f n = sum_upto g n.
Proof.
  induction n as [|n IH]; intros H; cbn; [reflexivity|].
  rewrite IH, H by (intros; try apply H; lia). reflexivity.
Qed.

(** The in-place addition of a potential to an element in volts. *)
Lemma add_to_volts (x : R) (k : Quantity) :
  dim_simplified (dimensionality k) = dim_simplified (dimensionality pq.V) ->
  pq.add (mkQ x (dimensionality pq.V)) k
  = OK (mkQ (x + volts (OK k)) (dimensionality pq.V)).
Proof.
  intros Hk. unfold pq.add, rescale. cbn [dimensionality magnitude].
  rewrite Hk, dim_eqb_refl. cbn [bind magnitude volts simplified].
  change (scale10 (dimensionality pq.V)) with 0%Z.
  now rewrite Z.sub_0_r.
Qed.

(** [phi_j[j] += k] for a potential [k] and an array in volts. *)
Lemma iadd_item_middle (pre mid : list R) (x : R) (k : Quantity) :
  dim_simplified (dimensionality k) = dim_simplified (dimensionality pq.V) ->
  iadd_item (mkQA (pre ++ x :: mid) (dimensionality pq.V)) (length pre) (OK k)
  = OK (mkQA (pre ++ (x + volts (OK k)) :: mid) (dimensionality pq.V)).
Proof.
  intros Hdim. unfold iadd_item, getitem. cbn [magnitudes a_dimensionality].
  rewrite list_lookup_middle by reflexivity. cbn [bind].
  rewrite add_to_volts by exact Hdim. cbn [bind].
  unfold setitem. cbn [magnitudes a_dimensionality].
  rewrite rescale_same by reflexivity. cbn [bind magnitude].
  destruct (decide _) as [_|Hge];
    [|exfalso; apply Hge; rewrite length_app; cbn; lia].
  rewrite insert_app_r_alt, Nat.sub_diag by lia. reflexivity.
Qed.

(** The loop over the electrodes, for one source: every element from
    position [length pre] on receives the potential of its electrode. *)
Lemma electrode_loop (c : Quantity -> result Quantity) (l : list Quantity) :
  forall pre mid : list R,
    length mid = length l ->
    (forall zj, In zj l ->
       exists k, c zj = OK k
                 /\ dim_simplified (dimensionality k)
                    = dim_simplified (dimensionality pq.V)) ->
    for_enumerate (fun phi_j j zj => iadd_item phi_j j (c zj))
                  (length pre) l (mkQA (pre ++ mid) (dimensionality pq.V))
    = OK (mkQA (pre ++ zip_with (fun x zj => x + volts (c zj)) mid l)
               (dimensionality pq.V)).
Proof.
  induction l as [|zj l IH]; intros pre mid Hlen Hc.
  - destruct mid; [reflexivity | discriminate].
  - destruct mid as [|x mid]; [discriminate|].
    injection Hlen as Hlen.
    destruct (Hc zj (or_introl eq_refl)) as (k & Hk & Hdim).
    cbn [for_enumerate zip_with].
    rewrite Hk, iadd_item_middle by exact Hdim. cbn [bind].
    rewrite (cons_middle _ pre mid), app_assoc.
    replace (Datatypes.S (length pre)) with (length (pre ++ [x + volts (OK k)]))
      by (rewrite length_app; cbn; lia).
    rewrite IH; [|exact Hlen|intros z Hz; apply Hc; now right].
    now rewrite <- app_assoc.
Qed.

(** One source: the trace holds the potential of each electrode. *)
Lemma accumulate_single (call : nat -> Quantity -> Quantity -> result Quantity)
    (z_j : QArray) (z : R) (d : Dimensionality) :
  returns_potentials call z_j (mkQA [z] d) ->
  accumulate call z_j (mkQA [z] d) (zeros (size z_j) pq.V)
  = OK (mkQA (map (fun zj => 0 * 1 + volts (call 0%nat zj (mkQ z d)))
                  (elements z_j))
             (dimensionality pq.V)).
Proof.
  intros Hret. unfold accumulate.
  change (elements (mkQA [z] d)) with [mkQ z d].
  change (zeros (size z_j) pq.V)
    with (mkQA ([] ++ replicate (size z_j) (0 * 1)) (dimensionality pq.V)).
  cbn [for_enumerate].
  pose proof (electrode_loop (fun zj => call 0%nat zj (mkQ z d)) (elements z_j)
                [] (replicate (size z_j) (0 * 1))) as E.
  change (length (@nil R)) with 0%nat in E.
  rewrite E.
  - cbn [bind app]. do 2 f_equal.
    apply zip_with_replicate_l. unfold elements. now rewrite length_map.
  - unfold elements, size. now rewrite length_replicate, length_map.
  - intros zj [j Hj]%list_elem_of_In%list_elem_of_lookup.
    apply (Hret 0%nat j); [reflexivity | exact Hj].
Qed.

Lemma returns_potentials_concat_l
    (call : nat -> Quantity -> Quantity -> result Quantity) (z_j a b : QArray) :
  returns_potentials call z_j (concat a b) ->
  returns_potentials call z_j a.
Proof.
  intros H i j zi zj Hi Hj. apply (H i j); [|exact Hj].
  unfold elements, concat in *. cbn [magnitudes a_dimensionality].
  rewrite map_app. now apply lookup_app_l_Some.
Qed.

Lemma returns_potentials_concat_r
    (call : nat -> Quantity -> Quantity -> result Quantity) (z_j a b : QArray) :
  a_dimensionality b = a_dimensionality a ->
  returns_potentials call z_j (concat a b) ->
  returns_potentials (fun i => call (size a + i)%nat) z_j b.
Proof.
  intros Hd H i j zi zj Hi Hj. apply (H (size a + i)%nat j); [|exact Hj].
  unfold elements, concat, size in *. cbn [magnitudes a_dimensionality].
  rewrite map_app, <- Hd, lookup_app_r by (rewrite length_map; lia).
  rewrite length_map. now replace (length (magnitudes a) + i - length (magnitudes a))%nat with i by lia.
Qed.

(** The loop nest started on zeros leaves, for every electrode, the sum
    over the sources of the potentials the calls returned. *)
Lemma accumulate_superposition
    (call : nat -> Quantity -> Quantity -> result Quantity)
    (z_j : QArray) (d : Dimensionality) (l : list R) :
  returns_potentials call z_j (mkQA l d) ->
  accumulate call z_j (mkQA l d) (zeros (size z_j) pq.V)
  = OK (mkQA (map (fun zj =>
                     sum_upto (fun i => volts (call i zj (item (mkQA l d) i)))
                              (length l))
                  (elements z_j))
             (dimensionality pq.V)).
Proof.
  induction l as [|z l IH] using rev_ind; intros Hret.
  - unfold accumulate, zeros, elements at 1. cbn.
    do 2 f_equal. unfold size, elements. rewrite Rmult_0_l.
    induction (magnitudes z_j) as [|x xs IHx]; cbn; [reflexivity|].
    now rewrite IHx.
  - assert (Hc : mkQA (l ++ [z]) d = concat (mkQA l d) (mkQA [z] d))
      by reflexivity.
    rewrite Hc in Hret |- *.
    rewrite accumulate_additive by reflexivity.
    rewrite IH by (eapply returns_potentials_concat_l; exact Hret).
    cbn [bind].
    rewrite accumulate_single
      by (apply returns_potentials_concat_r; [reflexivity | exact Hret]).
    cbn [bind]. unfold trace_add. cbn [magnitudes a_dimensionality].
    do 2 f_equal.
    rewrite zip_with_fmap_l, zip_with_fmap_r, zip_with_diag.
    apply map_ext. intros zj.
    rewrite length_app. cbn [length]. rewrite Nat.add_1_r. cbn [sum_upto].
    unfold size, item, concat. cbn [magnitudes a_dimensionality].
    rewrite Nat.add_0_r, nth_middle.
    rewrite (sum_upto_ext
               (fun i => volts (call i zj (mkQ (nth i (l ++ [z]) 0) d)))
               (fun i => volts (call i zj (mkQ (nth i l 0) d)))
               (length l)).
    + ring.
    + intros i Hi. now rewrite app_nth1 by exact Hi.
Qed.

Lemma getitem_concat_l (a b : QArray) (i : nat) :
  (i < size a)%nat -> getitem (concat a b) i = getitem a i.
Proof.
  intros Hi. unfold getitem, concat. cbn [magnitudes a_dimensionality].
  now rewrite lookup_app_l by exact Hi.
Qed.

Lemma getitem_concat_r (a b : QArray) (n i : nat) :
  a_dimensionality b = a_dimensionality a ->
  size a = n ->
  getitem (concat a b) (n + i) = getitem b i.
Proof.
  intros Hd <-. unfold getitem, concat, size. cbn [magnitudes a_dimensionality].
  rewrite lookup_app_r by lia.
  replace (length (magnitudes a) + i - length (magnitudes a))%nat with i by lia.
  now rewrite Hd.
Qed.

Lemma synth_superposition
    (call : nat -> Quantity -> Quantity -> result Quantity) (z_j z_i : QArray) :
  returns_potentials call z_j z_i ->
  exists trace : QArray,
    accumulate call z_j z_i (zeros (size z_j) pq.V) = OK trace
    /\ superposition_of call z_j z_i trace.
Proof.
  destruct z_i as [l d]. intros Hret. eexists. split.
  - apply accumulate_superposition, Hret.
  - unfold superposition_of, size. cbn [magnitudes a_dimensionality].
    split; [reflexivity|]. split.
    + unfold elements. now rewrite !length_map.
    + intros j zj Hj.
      rewrite (list_lookup_fmap _ (elements z_j) j), Hj. reflexivity.
Qed.

Lemma synth_additive
    (call1 call2 call12 : nat -> Quantity -> Quantity -> result Quantity)
    (z_j z_i z_i' : QArray) :
  a_dimensionality z_i' = a_dimensionality z_i ->
  (forall i zj zi, (i < size z_i)%nat -> call12 i zj zi = call1 i zj zi) ->
  (forall i zj zi, call12 (size z_i + i)%nat zj zi = call2 i zj zi) ->
  accumulate call12 z_j (concat z_i z_i') (zeros (size z_j) pq.V)
  = let* t1 := accumulate call1 z_j z_i (zeros (size z_j) pq.V) in
    let* t2 := accumulate call2 z_j z_i' (zeros (size z_j) pq.V) in
    OK (trace_add t1 t2).
Proof.
  intros Hd H1 H2. rewrite accumulate_additive by exact Hd.
  rewrite (accumulate_ext call12 call1) by exact H1.
  rewrite (accumulate_ext (fun i => call12 (size z_i + i)%nat) call2)
    by (intros; apply H2).
  reflexivity.
Qed.

(** Subscripts into concatenated arrays, one [bind] at a time. *)
Ltac concat_items :=
  repeat (first [ rewrite getitem_concat_l by lia
                | rewrite getitem_concat_r by assumption ];
          try match goal with
              | |- bind ?r _ = bind ?r _ =>
                  destruct r; cbn [bind]; [|reflexivity]
              end);
  try reflexivity.

(** ** The claims on concrete inputs *)

Lemma default_sigma_nonzero : magnitude default_sigma <> 0.
Proof.
  unfold default_sigma, pq.div, scalar_mul, pq.S, pq.m. cbn [magnitude]. lra.
Qed.

Lemma potential_of_plane_closed_form_witness :
  units_eq (units z_300um) (units default_z_i) = true
  /\ exists phi : Quantity,
       potential_of_plane z_300um default_z_i default_C_i_areal default_sigma
       = OK phi
       /\ magnitude (simplified phi)
          = - magnitude (simplified default_C_i_areal)
              / (2 * magnitude (simplified default_sigma))
            * Rabs (magnitude (simplified z_300um)
                    - magnitude (simplified default_z_i))
       /\ dimensionality (simplified phi)
          = dim_simplified
              (dim_mul (dim_div (dimensionality default_C_i_areal)
                                (dimensionality default_sigma))
                       (dimensionality z_300um))
       /\ (magnitude z_300um = magnitude default_z_i -> magnitude phi = 0).
Proof.
  split; [reflexivity|].
  apply (potential_of_plane_closed_form z_300um default_z_i). reflexivity.
Defined.

Lemma potential_of_disk_closed_form_witness :
  units_eq (units z_300um) (units default_z_i) = true
  /\ units_eq (units default_z_i) (units default_R_i) = true
  /\ exists phi : Quantity,
       potential_of_disk z_300um default_z_i default_C_i_areal default_R_i
                         default_sigma = OK phi
       /\ magnitude (simplified phi)
          = magnitude (simplified default_C_i_areal)
              / (2 * magnitude (simplified default_sigma))
            * (R_sqrt.sqrt
                 ((magnitude (simplified z_300um)
                   - magnitude (simplified default_z_i)) ^ 2
                  + magnitude (simplified default_R_i) ^ 2)
               - Rabs (magnitude (simplified z_300um)
                       - magnitude (simplified default_z_i)))
       /\ dimensionality (simplified phi)
          = dim_simplified
              (dim_mul (dim_div (dimensionality default_C_i_areal)
                                (dimensionality default_sigma))
                       (dimensionality z_300um)).
Proof.
  split; [reflexivity|]. split; [reflexivity|].
  apply (potential_of_disk_closed_form z_300um default_z_i); reflexivity.
Defined.

Lemma potential_of_cylinder_unit_and_magnitude_witness :
  exists phi : Quantity,
    potential_of_cylinder quad_loose z_300um default_z_i
      default_C_i_volumetric default_R_i default_h_i default_sigma = OK phi
    /\ dimensionality phi
       = dimensionality
           (pq.div (pq.mul (units default_C_i_volumetric)
                           (pq.pow (units default_z_i) 2))
                   (units default_sigma))
    /\ magnitude phi
       = magnitude default_C_i_volumetric
         * fst (quad_loose
                  (fun z : R =>
                     1 / (2 * magnitude default_sigma)
                     * (R_sqrt.sqrt ((z - magnitude z_300um) ^ 2
                                     + magnitude default_R_i ^ 2)
                        - Rabs (z - magnitude z_300um)))
                  (magnitude default_z_i - magnitude default_h_i / 2)
                  (magnitude default_z_i + magnitude default_h_i / 2)).
Proof.
  apply (potential_of_cylinder_unit_and_magnitude quad_loose z_300um default_z_i);
    [reflexivity | reflexivity | reflexivity | exact default_sigma_nonzero].
Defined.

Lemma kernels_reject_dimension_mismatch_witness :
  dim_simplified (dimensionality z_conductivity)
  <> dim_simplified (dimensionality default_z_i)
  /\ potential_of_plane z_conductivity default_z_i default_C_i_areal
                        default_sigma = Raise AssertionError
  /\ potential_of_disk z_conductivity default_z_i default_C_i_areal
                       default_R_i default_sigma = Raise AssertionError
  /\ potential_of_cylinder quad_tight z_conductivity default_z_i
       default_C_i_areal default_R_i default_h_i default_sigma
     = Raise AssertionError.
Proof.
  assert (H : dim_simplified (dimensionality z_conductivity)
              <> dim_simplified (dimensionality default_z_i))
    by (intros E; discriminate E).
  split; [exact H|].
  apply (kernels_reject_dimension_mismatch quad_tight z_conductivity default_z_i).
  exact H.
Defined.

(** C7, as the claim has it, fails: a field point of [1 mm] against a source
    position of [0 m] has the dimension of the source position and another
    scale, the two subtract to [1 mm], and yet the plane and disk kernels
    raise at their guard. *)
Lemma kernels_reject_millimetre_against_metre :
  dim_simplified (dimensionality z_1mm)
  = dim_simplified (dimensionality default_z_i)
  /\ scale10 (dimensionality z_1mm) <> scale10 (dimensionality default_z_i)
  /\ (exists d : Quantity,
        pq.sub z_1mm default_z_i = OK d
        /\ magnitude (simplified d) = 1 / 1000)
  /\ potential_of_plane z_1mm default_z_i default_C_i_areal default_sigma
     = Raise AssertionError
  /\ potential_of_disk z_1mm default_z_i default_C_i_areal default_R_i
                       default_sigma
     = Raise AssertionError.
Proof.
  split; [reflexivity|]. split; [intros E; discriminate E|].
  split; [|split; reflexivity].
  eexists. split; [reflexivity|].
  cbn [simplified magnitude dimensionality].
  unfold z_1mm, default_z_i, scalar_mul, pq.m, pq.mm, scale10.
  cbn [magnitude dimensionality e_mm e_mS e_mV].
  change (-3 * (0 + 0 + 0) - -3 * (1 + 0 + 0))%Z with 3%Z.
  change (-3 * (1 + 0 + 0))%Z with (-3)%Z.
  unfold powerRZ. change (Pos.to_nat 3) with 3%nat. lra.
Qed.

Lemma same_dimension_different_scale_witness :
  dim_simplified (dimensionality z_1mm)
  = dim_simplified (dimensionality default_z_i)
  /\ scale10 (dimensionality z_1mm) <> scale10 (dimensionality default_z_i)
  /\ potential_of_cylinder quad_tight z_1mm default_z_i
       default_C_i_areal default_R_i default_h_i default_sigma
     = Raise AssertionError.
Proof.
  assert (H : scale10 (dimensionality z_1mm)
              <> scale10 (dimensionality default_z_i))
    by (intros E; discriminate E).
  split; [reflexivity|]. split; [exact H|].
  apply (same_dimension_different_scale quad_tight z_1mm default_z_i
           default_C_i_areal default_R_i default_h_i default_sigma eq_refl H).
Defined.

(** C9, as the claim has it, fails: no reading of what the cylinder kernel
    returns gives the error estimate of a call of the quadrature, since two
    routines that differ only in their estimates make the kernel return the
    same potential. *)
Lemma potential_of_cylinder_abserr_not_returned :
  ~ exists read : result Quantity -> R,
      forall quad : (R -> R) -> R -> R -> R * R,
      exists (f : R -> R) (a b : R),
        read (potential_of_cylinder quad z_300um default_z_i
                default_C_i_volumetric default_R_i default_h_i default_sigma)
        = snd (quad f a b).
Proof.
  intros (read & H).
  destruct (H quad_tight) as (f1 & a1 & b1 & H1).
  destruct (H quad_loose) as (f2 & a2 & b2 & H2).
  rewrite potential_of_cylinder_value in H1, H2
    by (reflexivity || exact default_sigma_nonzero).
  unfold quad_tight, quad_loose in H1, H2. cbn [fst snd] in H1, H2.
  rewrite H1 in H2. lra.
Qed.

Lemma potential_of_cylinder_ignores_abserr_witness :
  exists phi : Quantity,
    potential_of_cylinder quad_tight z_300um default_z_i
      default_C_i_volumetric default_R_i default_h_i default_sigma = OK phi
    /\ potential_of_cylinder quad_loose z_300um default_z_i
         default_C_i_volumetric default_R_i default_h_i default_sigma = OK phi.
Proof.
  destruct (potential_of_cylinder_ignores_abserr quad_tight quad_loose
              z_300um default_z_i default_C_i_volumetric default_R_i
              default_h_i default_sigma eq_refl eq_refl eq_refl
              default_sigma_nonzero (fun _ _ _ => eq_refl))
    as (phi & H1 & H2 & _).
  exists phi. split; assumption.
Defined.

Lemma kernels_symmetric_in_positions_witness :
  units_eq (units z_300um) (units default_z_i) = true
  /\ potential_of_disk z_300um default_z_i default_C_i_areal default_R_i
                       default_sigma
     = potential_of_disk default_z_i z_300um default_C_i_areal default_R_i
                         default_sigma.
Proof.
  split; [reflexivity|].
  apply (kernels_symmetric_in_positions z_300um default_z_i default_C_i_areal
           default_R_i default_sigma eq_refl).
Defined.

(** The calls of the plane synthesizer return potentials when the two
    position arrays are in the same unit, there is a density for every
    source, and density times length over conductivity is a potential. *)
Lemma plane_call_returns (C_i : QArray) (sigma : Quantity) (z_j z_i : QArray) :
  units_eq (mkQ 1 (a_dimensionality z_j)) (mkQ 1 (a_dimensionality z_i)) = true ->
  (size z_i <= size C_i)%nat ->
  dim_simplified (dim_mul (dim_div (a_dimensionality C_i) (dimensionality sigma))
                          (a_dimensionality z_j))
  = dim_simplified (dimensionality pq.V) ->
  returns_potentials (plane_call C_i sigma) z_j z_i.
Proof.
  intros Hu Hsize Hdim i j zi zj Hi Hj.
  unfold elements in Hi, Hj.
  apply list_lookup_fmap_Some in Hi as (x & -> & Hx).
  apply list_lookup_fmap_Some in Hj as (y & -> & Hy).
  destruct (lookup_lt_is_Some_2 (magnitudes C_i) i) as [c Hc].
  { apply lookup_lt_Some in Hx. unfold size in Hsize. lia. }
  unfold plane_call, getitem. rewrite Hc. cbn [bind].
  rewrite potential_of_plane_value by exact Hu.
  eexists. split; [reflexivity|].
  cbn [simplified pq.mul pq.div pq.neg scalar_mul pq.abs dimensionality].
  rewrite dim_simplified_mul, dim_simplified_idem, <- dim_simplified_mul.
  exact Hdim.
Qed.

Lemma getitem_item (a : QArray) (i : nat) :
  (i < size a)%nat -> getitem a i = OK (item a i).
Proof.
  intros Hi. destruct (lookup_lt_is_Some_2 (magnitudes a) i Hi) as [x Hx].
  unfold getitem, item. now rewrite Hx, (nth_lookup_Some _ _ _ _ Hx).
Qed.

Lemma elements_item (a : QArray) (i : nat) :
  (i < size a)%nat -> elements a !! i = Some (item a i).
Proof.
  intros Hi. destruct (lookup_lt_is_Some_2 (magnitudes a) i Hi) as [x Hx].
  unfold elements, item. change (map ?f ?l) with (f <$> l).
  now rewrite list_lookup_fmap, Hx, (nth_lookup_Some _ _ _ _ Hx).
Qed.

(** The calls of the disk synthesizer return potentials when the position
    arrays and the radii are in the same unit, there is a density and a
    radius for every source, and density times length over conductivity is
    a potential. *)
Lemma disk_call_returns (C_i R_i : QArray) (sigma : Quantity) (z_j z_i : QArray) :
  units_eq (mkQ 1 (a_dimensionality z_j)) (mkQ 1 (a_dimensionality z_i)) = true ->
  units_eq (mkQ 1 (a_dimensionality z_i)) (mkQ 1 (a_dimensionality R_i)) = true ->
  (size z_i <= size C_i)%nat ->
  (size z_i <= size R_i)%nat ->
  dim_simplified (dim_mul (dim_div (a_dimensionality C_i) (dimensionality sigma))
                          (a_dimensionality z_j))
  = dim_simplified (dimensionality pq.V) ->
  returns_potentials (disk_call C_i R_i sigma) z_j z_i.
Proof.
  intros Hu HuR HsC HsR Hdim i j zi zj Hi Hj.
  unfold elements in Hi, Hj.
  apply list_lookup_fmap_Some in Hi as (x & -> & Hx).
  apply list_lookup_fmap_Some in Hj as (y & -> & Hy).
  apply lookup_lt_Some in Hx as Hlt. unfold size in HsC, HsR.
  destruct (lookup_lt_is_Some_2 (magnitudes C_i) i) as [c Hc]; [lia|].
  destruct (lookup_lt_is_Some_2 (magnitudes R_i) i) as [r Hr]; [lia|].
  unfold disk_call, getitem. rewrite Hc, Hr. cbn [bind].
  rewrite potential_of_disk_value by assumption.
  eexists. split; [reflexivity|].
  cbn [simplified pq.mul pq.div scalar_mul dimensionality].
  rewrite dim_simplified_mul, dim_simplified_idem, <- dim_simplified_mul.
  exact Hdim.
Qed.

(** The calls of the cylinder synthesizer return potentials when the
    position arrays, the radii and the heights are in the same unit, there
    is a density, a radius and a height for every source, the conductivity
    is not zero, and density times squared length over conductivity is a
    potential. *)
Lemma cylinder_call_returns (quad : (R -> R) -> R -> R -> R * R)
    (C_i R_i h_i : QArray) (sigma : Quantity) (z_j z_i : QArray) :
  units_eq (mkQ 1 (a_dimensionality z_j)) (mkQ 1 (a_dimensionality z_i)) = true ->
  units_eq (mkQ 1 (a_dimensionality z_i)) (mkQ 1 (a_dimensionality R_i)) = true ->
  units_eq (mkQ 1 (a_dimensionality R_i)) (mkQ 1 (a_dimensionality h_i)) = true ->
  (size z_i <= size C_i)%nat ->
  (size z_i <= size R_i)%nat ->
  (size z_i <= size h_i)%nat ->
  magnitude sigma <> 0 ->
  dim_simplified (dim_div (dim_mul (a_dimensionality C_i)
                                   (dim_pow (a_dimensionality z_i) 2))
                          (dimensionality sigma))
  = dim_simplified (dimensionality pq.V) ->
  returns_potentials (cylinder_call quad C_i R_i h_i sigma) z_j z_i.
Proof.
  intros Hu HuR Huh HsC HsR Hsh Hsig Hdim i j zi zj Hi Hj.
  unfold elements in Hi, Hj.
  apply list_lookup_fmap_Some in Hi as (x & -> & Hx).
  apply list_lookup_fmap_Some in Hj as (y & -> & Hy).
  apply lookup_lt_Some in Hx as Hlt. unfold size in HsC, HsR, Hsh.
  destruct (lookup_lt_is_Some_2 (magnitudes C_i) i) as [c Hc]; [lia|].
  destruct (lookup_lt_is_Some_2 (magnitudes R_i) i) as [r Hr]; [lia|].
  destruct (lookup_lt_is_Some_2 (magnitudes h_i) i) as [h Hh]; [lia|].
  unfold cylinder_call, getitem. rewrite Hc, Hr, Hh. cbn [bind].
  rewrite potential_of_cylinder_value by assumption.
  eexists. split; [reflexivity|]. exact Hdim.
Qed.

(** From the calls of the loop body to the kernel itself: when the call
    for source [i] is the kernel at source [i], a superposition of the
    calls is the sum of the kernel over the sources. *)
Lemma superposition_of_kernel
    (call : nat -> Quantity -> Quantity -> result Quantity)
    (kernel : nat -> Quantity -> result Quantity)
    (z_j z_i trace : QArray) :
  returns_potentials call z_j z_i ->
  (forall i zj, (i < size z_i)%nat -> call i zj (item z_i i) = kernel i zj) ->
  superposition_of call z_j z_i trace ->
  forall (j : nat) (zj : Quantity),
    elements z_j !! j = Some zj ->
    (forall i, (i < size z_i)%nat -> exists k, kernel i zj = OK k)
    /\ magnitudes trace !! j
       = Some (sum_upto (fun i => volts (kernel i zj)) (size z_i)).
Proof.
  intros Hret Hcall (_ & _ & Hsum) j zj Hj. split.
  - intros i Hi.
    destruct (Hret i j (item z_i i) zj (elements_item z_i i Hi) Hj)
      as (k & Hk & _).
    exists k. now rewrite <- Hcall.
  - rewrite (Hsum j zj Hj). f_equal. apply sum_upto_ext.
    intros i Hi. now rewrite Hcall.
Qed.

(** C8.  For each of the three synthesizers, when the position arrays (and
    the radii and heights) are in one unit, every source has its density
    (radius, height) and the kernel's result is a potential: the synthesizer
    returns a trace in volts with one value per electrode, together with the
    density array it was given, and element [j] of the trace is the sum over
    the sources [i] of the kernel ([potential_of_plane], [potential_of_disk],
    [potential_of_cylinder]) at electrode [j] and source [i], each of these
    kernel calls returning; and the trace of the concatenation of two lists
    of sources is the elementwise sum of the traces of each list (an
    exception of either run being the exception of the joint run). *)
Theorem lfp_is_superposition (quad : (R -> R) -> R -> R -> R * R) :
  (forall (z_j z_i C_i : QArray) (sigma : Quantity),
      units_eq (mkQ 1 (a_dimensionality z_j)) (mkQ 1 (a_dimensionality z_i)) = true ->
      (size z_i <= size C_i)%nat ->
      dim_simplified (dim_mul (dim_div (a_dimensionality C_i)
                                       (dimensionality sigma))
                              (a_dimensionality z_j))
      = dim_simplified (dimensionality pq.V) ->
      exists trace : QArray,
        get_lfp_of_planes z_j z_i C_i sigma = OK (trace, C_i)
        /\ a_dimensionality trace = dimensionality pq.V
        /\ size trace = size z_j
        /\ forall (j : nat) (zj : Quantity),
             elements z_j !! j = Some zj ->
             (forall i, (i < size z_i)%nat ->
                exists k, potential_of_plane zj (item z_i i) (item C_i i) sigma
                          = OK k)
             /\ magnitudes trace !! j
                = Some (sum_upto
                          (fun i => volts (potential_of_plane
                                             zj (item z_i i) (item C_i i) sigma))
                          (size z_i)))
  /\ (forall (z_j z_i C_i R_i : QArray) (sigma : Quantity),
      units_eq (mkQ 1 (a_dimensionality z_j)) (mkQ 1 (a_dimensionality z_i)) = true ->
      units_eq (mkQ 1 (a_dimensionality z_i)) (mkQ 1 (a_dimensionality R_i)) = true ->
      (size z_i <= size C_i)%nat ->
      (size z_i <= size R_i)%nat ->
      dim_simplified (dim_mul (dim_div (a_dimensionality C_i)
                                       (dimensionality sigma))
                              (a_dimensionality z_j))
      = dim_simplified (dimensionality pq.V) ->
      exists trace : QArray,
        get_lfp_of_disks z_j z_i C_i R_i sigma = OK (trace, C_i)
        /\ a_dimensionality trace = dimensionality pq.V
        /\ size trace = size z_j
        /\ forall (j : nat) (zj : Quantity),
             elements z_j !! j = Some zj ->
             (forall i, (i < size z_i)%nat ->
                exists k, potential_of_disk zj (item z_i i) (item C_i i)
                                            (item R_i i) sigma
                          = OK k)
             /\ magnitudes trace !! j
                = Some (sum_upto
                          (fun i => volts (potential_of_disk
                                             zj (item z_i i) (item C_i i)
                                             (item R_i i) sigma))
                          (size z_i)))
  /\ (forall (z_j z_i C_i R_i h_i : QArray) (sigma : Quantity),
      units_eq (mkQ 1 (a_dimensionality z_j)) (mkQ 1 (a_dimensionality z_i)) = true ->
      units_eq (mkQ 1 (a_dimensionality z_i)) (mkQ 1 (a_dimensionality R_i)) = true ->
      units_eq (mkQ 1 (a_dimensionality R_i)) (mkQ 1 (a_dimensionality h_i)) = true ->
      (size z_i <= size C_i)%nat ->
      (size z_i <= size R_i)%nat ->
      (size z_i <= size h_i)%nat ->
      magnitude sigma <> 0 ->
      dim_simplified (dim_div (dim_mul (a_dimensionality C_i)
                                       (dim_pow (a_dimensionality z_i) 2))
                              (dimensionality sigma))
      = dim_simplified (dimensionality pq.V) ->
      exists trace : QArray,
        get_lfp_of_cylinders quad z_j z_i C_i R_i h_i sigma = OK (trace, C_i)
        /\ a_dimensionality trace = dimensionality pq.V
        /\ size trace = size z_j
        /\ forall (j : nat) (zj : Quantity),
             elements z_j !! j = Some zj ->
             (forall i, (i < size z_i)%nat ->
                exists k, potential_of_cylinder quad zj (item z_i i)
                            (item C_i i) (item R_i i) (item h_i i) sigma
                          = OK k)
             /\ magnitudes trace !! j
                = Some (sum_upto
                          (fun i => volts (potential_of_cylinder
                                             quad zj (item z_i i) (item C_i i)
                                             (item R_i i) (item h_i i) sigma))
                          (size z_i)))
  /\ (forall (z_j z_i z_i' C_i C_i' : QArray) (sigma : Quantity),
      a_dimensionality z_i' = a_dimensionality z_i ->
      a_dimensionality C_i' = a_dimensionality C_i ->
      size C_i = size z_i ->
      get_lfp_of_planes z_j (concat z_i z_i') (concat C_i C_i') sigma
      = let* r := get_lfp_of_planes z_j z_i C_i sigma in
        let* r' := get_lfp_of_planes z_j z_i' C_i' sigma in
        OK (trace_add (fst r) (fst r'), concat C_i C_i'))
  /\ (forall (z_j z_i z_i' C_i C_i' R_i R_i' : QArray) (sigma : Quantity),
      a_dimensionality z_i' = a_dimensionality z_i ->
      a_dimensionality C_i' = a_dimensionality C_i ->
      a_dimensionality R_i' = a_dimensionality R_i ->
      size C_i = size z_i ->
      size R_i = size z_i ->
      get_lfp_of_disks z_j (concat z_i z_i') (concat C_i C_i')
                       (concat R_i R_i') sigma
      = let* r := get_lfp_of_disks z_j z_i C_i R_i sigma in
        let* r' := get_lfp_of_disks z_j z_i' C_i' R_i' sigma in
        OK (trace_add (fst r) (fst r'), concat C_i C_i'))
  /\ (forall (z_j z_i z_i' C_i C_i' R_i R_i' h_i h_i' : QArray)
             (sigma : Quantity),
      a_dimensionality z_i' = a_dimensionality z_i ->
      a_dimensionality C_i' = a_dimensionality C_i ->
      a_dimensionality R_i' = a_dimensionality R_i ->
      a_dimensionality h_i' = a_dimensionality h_i ->
      size C_i = size z_i ->
      size R_i = size z_i ->
      size h_i = size z_i ->
      get_lfp_of_cylinders quad z_j (concat z_i z_i') (concat C_i C_i')
                           (concat R_i R_i') (concat h_i h_i') sigma
      = let* r := get_lfp_of_cylinders quad z_j z_i C_i R_i h_i sigma in
        let* r' := get_lfp_of_cylinders quad z_j z_i' C_i' R_i' h_i' sigma in
        OK (trace_add (fst r) (fst r'), concat C_i C_i')).
Proof.
  repeat apply conj.
  - intros z_j z_i C_i sigma Hu HsC Hdim.
    pose proof (plane_call_returns C_i sigma z_j z_i Hu HsC Hdim) as Hret.
    destruct (synth_superposition _ _ _ Hret) as (trace & Ht & Hs).
    exists trace. unfold get_lfp_of_planes. rewrite Ht.
    split; [reflexivity|]. split; [apply Hs|]. split; [apply Hs|].
    apply (superposition_of_kernel (plane_call C_i sigma)
             (fun i zj => potential_of_plane zj (item z_i i) (item C_i i) sigma));
      [exact Hret | | exact Hs].
    intros i zj Hi. unfold plane_call. now rewrite getitem_item by lia.
  - intros z_j z_i C_i R_i sigma Hu HuR HsC HsR Hdim.
    pose proof (disk_call_returns C_i R_i sigma z_j z_i Hu HuR HsC HsR Hdim)
      as Hret.
    destruct (synth_superposition _ _ _ Hret) as (trace & Ht & Hs).
    exists trace. unfold get_lfp_of_disks. rewrite Ht.
    split; [reflexivity|]. split; [apply Hs|]. split; [apply Hs|].
    apply (superposition_of_kernel (disk_call C_i R_i sigma)
             (fun i zj => potential_of_disk zj (item z_i i) (item C_i i)
                                            (item R_i i) sigma));
      [exact Hret | | exact Hs].
    intros i zj Hi. unfold disk_call. now rewrite !getitem_item by lia.
  - intros z_j z_i C_i R_i h_i sigma Hu HuR Huh HsC HsR Hsh Hsig Hdim.
    pose proof (cylinder_call_returns quad C_i R_i h_i sigma z_j z_i
                  Hu HuR Huh HsC HsR Hsh Hsig Hdim) as Hret.
    destruct (synth_superposition _ _ _ Hret) as (trace & Ht & Hs).
    exists trace. unfold get_lfp_of_cylinders. rewrite Ht.
    split; [reflexivity|]. split; [apply Hs|]. split; [apply Hs|].
    apply (superposition_of_kernel (cylinder_call quad C_i R_i h_i sigma)
             (fun i zj => potential_of_cylinder quad zj (item z_i i)
                            (item C_i i) (item R_i i) (item h_i i) sigma));
      [exact Hret | | exact Hs].
    intros i zj Hi. unfold cylinder_call. now rewrite !getitem_item by lia.
  - intros z_j z_i z_i' C_i C_i' sigma Hz HC HsC.
    unfold get_lfp_of_planes.
    rewrite (synth_additive (plane_call C_i sigma) (plane_call C_i' sigma));
      [| exact Hz | |].
    + destruct (accumulate (plane_call C_i sigma) _ _ _); cbn [bind fst];
        [|reflexivity].
      destruct (accumulate (plane_call C_i' sigma) _ _ _); reflexivity.
    + intros i zj zi Hi. unfold plane_call. concat_items.
    + intros i zj zi. unfold plane_call. concat_items.
  - intros z_j z_i z_i' C_i C_i' R_i R_i' sigma Hz HC HR HsC HsR.
    unfold get_lfp_of_disks.
    rewrite (synth_additive (disk_call C_i R_i sigma) (disk_call C_i' R_i' sigma));
      [| exact Hz | |].
    + destruct (accumulate (disk_call C_i R_i sigma) _ _ _); cbn [bind fst];
        [|reflexivity].
      destruct (accumulate (disk_call C_i' R_i' sigma) _ _ _); reflexivity.
    + intros i zj zi Hi. unfold disk_call. concat_items.
    + intros i zj zi. unfold disk_call. concat_items.
  - intros z_j z_i z_i' C_i C_i' R_i R_i' h_i h_i' sigma Hz HC HR Hh HsC HsR Hsh.
    unfold get_lfp_of_cylinders.
    rewrite (synth_additive (cylinder_call quad C_i R_i h_i sigma)
                            (cylinder_call quad C_i' R_i' h_i' sigma));
      [| exact Hz | |].
    + destruct (accumulate (cylinder_call quad C_i R_i h_i sigma) _ _ _);
        cbn [bind fst]; [|reflexivity].
      destruct (accumulate (cylinder_call quad C_i' R_i' h_i' sigma) _ _ _);
        reflexivity.
    + intros i zj zi Hi. unfold cylinder_call. concat_items.
    + intros i zj zi. unfold cylinder_call. concat_items.
Qed.

Lemma lfp_is_superposition_witness :
  (exists trace : QArray,
      get_lfp_of_planes test_z_j test_z_j test_C_i default_sigma
      = OK (trace, test_C_i)
      /\ a_dimensionality trace = dimensionality pq.V
      /\ size trace = size test_z_j
      /\ forall (j : nat) (zj : Quantity),
           elements test_z_j !! j = Some zj ->
           (forall i, (i < size test_z_j)%nat ->
              exists k, potential_of_plane zj (item test_z_j i)
                          (item test_C_i i) default_sigma
                        = OK k)
           /\ magnitudes trace !! j
              = Some (sum_upto
                        (fun i => volts (potential_of_plane
                                           zj (item test_z_j i)
                                           (item test_C_i i) default_sigma))
                        (size test_z_j)))
  /\ get_lfp_of_planes test_z_j (concat test_z_j test_z_j)
                       (concat test_C_i test_C_i) default_sigma
     = (let* r := get_lfp_of_planes test_z_j test_z_j test_C_i default_sigma in
        let* r' := get_lfp_of_planes test_z_j test_z_j test_C_i default_sigma in
        OK (trace_add (fst r) (fst r'), concat test_C_i test_C_i)).
Proof.
  destruct (lfp_is_superposition quad_tight) as (Hp & _ & _ & Ha & _).
  split.
  - apply Hp; [reflexivity | cbn; lia | reflexivity].
  - apply Ha; reflexivity.
Defined.

(** ** Runs of the model *)

(** The plane kernel at [3E-4 m] above a unit source at [0 m] in a medium
    of [0.3 S/m]: [-5E-4], in [A/S]. *)
Example potential_of_plane_at_300um :
  exists phi : Quantity,
    potential_of_plane z_300um default_z_i default_C_i_areal default_sigma
    = OK phi
    /\ magnitude phi = - 5E-4
    /\ dimensionality phi = dimensionality (pq.div pq.A pq.S).
Proof.
  eexists. split; [apply potential_of_plane_value; reflexivity|].
  split; [|reflexivity].
  unfold z_300um, default_z_i, default_C_i_areal, default_sigma.
  unfold simplified, pq.mul, pq.div, pq.neg, pq.abs, pq.pow, scalar_mul,
    pq.m, pq.A, pq.S.
  cbn [magnitude dimensionality].
  change (scale10 _) with 0%Z. cbn [powerRZ].
  rewrite Rabs_pos_eq by lra. lra.
Qed.

(** The same field point given in millimetres is turned away. *)
Example potential_of_plane_at_1mm :
  potential_of_plane z_1mm default_z_i default_C_i_areal default_sigma
  = Raise AssertionError.
Proof. reflexivity. Qed.

(** A density array shorter than the source array: the subscript raises
    in the first iteration. *)
Example get_lfp_of_planes_short_density :
  get_lfp_of_planes test_z_j test_z_j (mkQA [] (a_dimensionality test_C_i))
                    default_sigma
  = Raise IndexError.
Proof. reflexivity. Qed.

(** ** More on the kernels *)

Lemma potential_of_cylinder_zero_sigma (quad : (R -> R) -> R -> R -> R * R)
    (z_j z_i C_i R_i h_i sigma : Quantity) :
  cylinder_guard z_j z_i R_i h_i = true ->
  magnitude sigma = 0 ->
  potential_of_cylinder quad z_j z_i C_i R_i h_i sigma = Raise ZeroDivisionError.
Proof.
  unfold cylinder_guard. intros Hg Hs.
  pose proof Hg as Hg'. apply andb_true_iff in Hg' as [Hg' H3].
  apply andb_true_iff in Hg' as [H1 H2].
  unfold potential_of_cylinder. rewrite Hg.
  pose proof (units_eq_trans _ _ _ H2 H3) as H4.
  rewrite (sub_units_eq z_i (div_scalar h_i 2)) by exact H4.
  rewrite (add_units_eq z_i (div_scalar h_i 2)) by exact H4.
  unfold float. cbn [bind].
  destruct (Req_dec_T (magnitude sigma) 0) as [_|N]; [reflexivity | contradiction].
Qed.

Lemma potential_of_cylinder_guard (quad : (R -> R) -> R -> R -> R * R)
    (z_j z_i C_i R_i h_i sigma : Quantity) :
  cylinder_guard z_j z_i R_i h_i = false ->
  potential_of_cylinder quad z_j z_i C_i R_i h_i sigma = Raise AssertionError.
Proof.
  unfold cylinder_guard, potential_of_cylinder. now intros ->.
Qed.

Lemma potential_of_cylinder_passes (quad : (R -> R) -> R -> R -> R * R)
    (z_j z_i C_i R_i h_i sigma : Quantity) :
  cylinder_guard z_j z_i R_i h_i = true ->
  magnitude sigma <> 0 ->
  exists phi, potential_of_cylinder quad z_j z_i C_i R_i h_i sigma = OK phi.
Proof.
  unfold cylinder_guard. intros Hg Hs.
  apply andb_true_iff in Hg as [Hg H3]. apply andb_true_iff in Hg as [H1 H2].
  eexists. apply potential_of_cylinder_value; assumption.
Qed.

(** The plane and disk kernels return exactly when their guard holds, and
    the failure of the guard is the only exception they raise: the
    subtraction, the sum of squares and the root never fail behind it. *)
Theorem plane_and_disk_raise_only_at_guard (z_j z_i C_i R_i sigma : Quantity) :
  ((exists phi, potential_of_plane z_j z_i C_i sigma = OK phi)
   <-> units_eq (units z_j) (units z_i) = true)
  /\ (forall e, potential_of_plane z_j z_i C_i sigma = Raise e
                -> e = AssertionError)
  /\ ((exists phi, potential_of_disk z_j z_i C_i R_i sigma = OK phi)
      <-> units_eq (units z_j) (units z_i) = true
          /\ units_eq (units z_i) (units R_i) = true)
  /\ (forall e, potential_of_disk z_j z_i C_i R_i sigma = Raise e
                -> e = AssertionError).
Proof.
  destruct (units_eq (units z_j) (units z_i)) eqn:H1.
  - rewrite potential_of_plane_value by exact H1.
    split; [split; eauto|]. split; [discriminate|].
    destruct (units_eq (units z_i) (units R_i)) eqn:H2.
    + rewrite potential_of_disk_value by assumption.
      split; [split; eauto | discriminate].
    + unfold potential_of_disk. rewrite H1, H2. cbn [andb].
      split; [|now intros e [= <-]].
      split; [intros [phi E]; discriminate E | intros [_ E]; discriminate E].
  - unfold potential_of_plane, potential_of_disk. rewrite H1. cbn [andb].
    split; [split; [intros [phi E]; discriminate E | discriminate]|].
    split; [now intros e [= <-]|].
    split; [|now intros e [= <-]].
    split; [intros [phi E]; discriminate E | intros [E _]; discriminate E].
Qed.

(** The cylinder kernel has three outcomes: a potential when the guard
    holds and the conductivity is not zero, a [ZeroDivisionError] when the
    guard holds and the conductivity is zero, and the failure of the guard
    otherwise, whatever the quadrature routine does. *)
Theorem cylinder_outcomes (quad : (R -> R) -> R -> R -> R * R)
    (z_j z_i C_i R_i h_i sigma : Quantity) :
  ((exists phi, potential_of_cylinder quad z_j z_i C_i R_i h_i sigma = OK phi)
   <-> cylinder_guard z_j z_i R_i h_i = true /\ magnitude sigma <> 0)
  /\ (potential_of_cylinder quad z_j z_i C_i R_i h_i sigma
      = Raise ZeroDivisionError
      <-> cylinder_guard z_j z_i R_i h_i = true /\ magnitude sigma = 0)
  /\ (potential_of_cylinder quad z_j z_i C_i R_i h_i sigma
      = Raise AssertionError
      <-> cylinder_guard z_j z_i R_i h_i = false).
Proof.
  destruct (cylinder_guard z_j z_i R_i h_i) eqn:Hg.
  - destruct (Req_dec_T (magnitude sigma) 0) as [Hs|Hs].
    + rewrite potential_of_cylinder_zero_sigma by assumption.
      split; [split; [intros [phi E]; discriminate E | intros [_ N]; contradiction]|].
      split; [tauto|]. split; discriminate.
    + destruct (potential_of_cylinder_passes quad z_j z_i C_i R_i h_i sigma Hg Hs)
        as [phi ->].
      split; [split; eauto|].
      split; [split; [discriminate | intros [_ E]; contradiction]|].
      split; discriminate.
  - rewrite potential_of_cylinder_guard by exact Hg.
    split; [split; [intros [phi E]; discriminate E | intros [E _]; discriminate E]|].
    split; [split; [discriminate | intros [E _]; discriminate E]|].
    tauto.
Qed.

(** The magnitudes of what the plane and disk kernels return, in SI base
    units. *)
Lemma plane_value_si (z_j z_i C_i sigma : Quantity) :
  scale10 (dimensionality z_j) = scale10 (dimensionality z_i) ->
  magnitude
    (simplified
       (pq.mul (pq.div (pq.neg C_i) (scalar_mul 2 sigma))
               (simplified
                  (pq.abs (mkQ (magnitude z_j - magnitude z_i)
                               (dimensionality z_j))))))
  = - magnitude (simplified C_i) / (2 * magnitude (simplified sigma))
    * Rabs (magnitude (simplified z_j) - magnitude (simplified z_i)).
Proof.
  intros Hs.
  rewrite si_mul, si_div, si_neg, si_scalar_mul, si_simplified, si_abs.
  do 2 f_equal. cbn [simplified magnitude dimensionality].
  rewrite Hs. ring.
Qed.

Lemma sqrt_scaled (d r p : R) :
  0 < p ->
  R_sqrt.sqrt ((d * p) ^ 2 + (r * p) ^ 2) = R_sqrt.sqrt (d ^ 2 + r ^ 2) * p.
Proof.
  intros Hp.
  replace ((d * p) ^ 2 + (r * p) ^ 2) with ((d ^ 2 + r ^ 2) * (p * p)) by ring.
  rewrite sqrt_mult_alt by (apply Rplus_le_le_0_compat; apply pow2_ge_0).
  now rewrite sqrt_square by lra.
Qed.

Lemma disk_value_si (z_j z_i C_i R_i sigma : Quantity) :
  scale10 (dimensionality z_j) = scale10 (dimensionality z_i) ->
  scale10 (dimensionality z_i) = scale10 (dimensionality R_i) ->
  magnitude
    (simplified
       (pq.mul (pq.div C_i (scalar_mul 2 sigma))
               (simplified
                  (mkQ (R_sqrt.sqrt ((magnitude z_j - magnitude z_i) ^ 2
                                     + magnitude R_i ^ 2)
                        - Rabs (magnitude z_j - magnitude z_i))
                       (dimensionality z_j)))))
  = magnitude (simplified C_i) / (2 * magnitude (simplified sigma))
    * (R_sqrt.sqrt
         ((magnitude (simplified z_j) - magnitude (simplified z_i)) ^ 2
          + magnitude (simplified R_i) ^ 2)
       - Rabs (magnitude (simplified z_j) - magnitude (simplified z_i))).
Proof.
  intros Hs1 Hs2.
  rewrite si_mul, si_div, si_scalar_mul, si_simplified.
  f_equal. cbn [simplified magnitude dimensionality].
  rewrite <- Hs2, <- Hs1.
  set (p := powerRZ 10 (scale10 (dimensionality z_j))).
  assert (Hp : 0 < p) by apply ten_pow_pos.
  replace (magnitude z_j * p - magnitude z_i * p)
    with ((magnitude z_j - magnitude z_i) * p) by ring.
  rewrite sqrt_scaled by exact Hp.
  rewrite Rabs_mult, (Rabs_pos_eq p) by lra. ring.
Qed.

(** The root of a sum of squares lies between the absolute value of one
    term and the sum of the absolute values. *)
Lemma sqrt_sum_squares_bounds (d r : R) :
  0 <= r ->
  Rabs d <= R_sqrt.sqrt (d ^ 2 + r ^ 2) <= Rabs d + r.
Proof.
  intros Hr. pose proof (Rabs_pos d) as Hd.
  assert (Hd2 : Rabs d * Rabs d = d * d).
  { rewrite <- Rabs_mult. apply Rabs_pos_eq. nra. }
  split.
  - rewrite <- (sqrt_square (Rabs d)) at 1 by exact Hd.
    apply sqrt_le_1_alt. nra.
  - rewrite <- (sqrt_square (Rabs d + r)) by lra.
    apply sqrt_le_1_alt. nra.
Qed.

(** For a source (non-negative density) in a medium of positive
    conductivity, the plane kernel is never positive and does not increase
    with the distance to the plane. *)
Theorem plane_potential_sign_and_decay (z_j z_j' z_i C_i sigma : Quantity) :
  units_eq (units z_j) (units z_i) = true ->
  units_eq (units z_j') (units z_i) = true ->
  0 <= magnitude C_i ->
  0 < magnitude sigma ->
  Rabs (magnitude z_j - magnitude z_i) <= Rabs (magnitude z_j' - magnitude z_i) ->
  exists phi phi' : Quantity,
    potential_of_plane z_j z_i C_i sigma = OK phi
    /\ potential_of_plane z_j' z_i C_i sigma = OK phi'
    /\ dimensionality phi' = dimensionality phi
    /\ magnitude phi' <= magnitude phi <= 0.
Proof.
  intros H H' HC Hs Hd.
  pose proof H as [Hd1 Hs1]%units_eq_spec.
  pose proof H' as [Hd2 Hs2]%units_eq_spec.
  do 2 eexists.
  split; [apply potential_of_plane_value, H|].
  split; [apply potential_of_plane_value, H'|].
  cbn [pq.mul pq.div pq.neg scalar_mul pq.abs simplified magnitude dimensionality].
  split; [now rewrite Hd1, Hd2|].
  rewrite Hs1, Hs2.
  set (p := powerRZ 10 (scale10 (dimensionality z_i))).
  assert (Hp : 0 < p) by apply ten_pow_pos.
  assert (Hq : 0 <= magnitude C_i / (2 * magnitude sigma)).
  { apply Rmult_le_pos; [exact HC|]. left. apply Rinv_0_lt_compat. lra. }
  pose proof (Rabs_pos (magnitude z_j - magnitude z_i)) as Ha.
  replace (- magnitude C_i / (2 * magnitude sigma))
    with (- (magnitude C_i / (2 * magnitude sigma))) by (unfold Rdiv; ring).
  set (q := magnitude C_i / (2 * magnitude sigma)) in *.
  set (a := Rabs (magnitude z_j - magnitude z_i)) in *.
  set (a' := Rabs (magnitude z_j' - magnitude z_i)) in *.
  assert (Hqp : 0 <= q * p) by nra.
  split; nra.
Qed.

(** For a source (non-negative density) in a medium of positive
    conductivity and a non-negative radius, the disk kernel lies between
    zero and [C_i*R_i/(2*sigma)] (SI base units), which it takes on the
    disk itself. *)
Theorem disk_potential_bounds (z_j z_i C_i R_i sigma : Quantity) :
  units_eq (units z_j) (units z_i) = true ->
  units_eq (units z_i) (units R_i) = true ->
  0 <= magnitude C_i ->
  0 < magnitude sigma ->
  0 <= magnitude R_i ->
  exists phi : Quantity,
    potential_of_disk z_j z_i C_i R_i sigma = OK phi
    /\ 0 <= magnitude (simplified phi)
            <= magnitude (simplified C_i) * magnitude (simplified R_i)
               / (2 * magnitude (simplified sigma))
    /\ (magnitude z_j = magnitude z_i ->
        magnitude (simplified phi)
        = magnitude (simplified C_i) * magnitude (simplified R_i)
          / (2 * magnitude (simplified sigma))).
Proof.
  intros H1 H2 HC Hs HR.
  pose proof H1 as [_ Hs1]%units_eq_spec.
  pose proof H2 as [_ Hs2]%units_eq_spec.
  eexists. split; [apply potential_of_disk_value; assumption|].
  rewrite disk_value_si by assumption.
  cbn [simplified magnitude dimensionality]. rewrite <- Hs2, <- Hs1.
  set (p := powerRZ 10 (scale10 (dimensionality z_j))).
  set (pc := powerRZ 10 (scale10 (dimensionality C_i))).
  set (ps := powerRZ 10 (scale10 (dimensionality sigma))).
  assert (Hp : 0 < p) by apply ten_pow_pos.
  assert (Hpc : 0 < pc) by apply ten_pow_pos.
  assert (Hps : 0 < ps) by apply ten_pow_pos.
  assert (Hq : 0 <= magnitude C_i * pc / (2 * (magnitude sigma * ps))).
  { apply Rmult_le_pos; [nra|]. left. apply Rinv_0_lt_compat. nra. }
  set (q := magnitude C_i * pc / (2 * (magnitude sigma * ps))) in *.
  replace (magnitude C_i * pc * (magnitude R_i * p)
           / (2 * (magnitude sigma * ps)))
    with (q * (magnitude R_i * p)) by (unfold q, Rdiv; ring).
  assert (HRp : 0 <= magnitude R_i * p) by nra.
  pose proof (sqrt_sum_squares_bounds
                (magnitude z_j * p - magnitude z_i * p) (magnitude R_i * p) HRp)
    as [Hlo Hhi].
  split; [split; nra|].
  intros E. rewrite E, Rminus_diag, Rabs_R0.
  replace (0 ^ 2 + (magnitude R_i * p) ^ 2)
    with ((magnitude R_i * p) * (magnitude R_i * p)) by ring.
  rewrite sqrt_square by exact HRp. ring.
Qed.

(** Relative to its value on the disk, the disk kernel differs from the
    plane kernel by at most [C_i*d^2/(4*sigma*R_i)], [d] being the distance
    to the disk, all in SI base units: the two agree as the radius
    grows. *)
Theorem disk_approaches_plane (z_j z_i C_i R_i sigma : Quantity) :
  units_eq (units z_j) (units z_i) = true ->
  units_eq (units z_i) (units R_i) = true ->
  0 <= magnitude C_i ->
  0 < magnitude sigma ->
  0 < magnitude R_i ->
  exists disk disk0 plane : Quantity,
    potential_of_disk z_j z_i C_i R_i sigma = OK disk
    /\ potential_of_disk z_i z_i C_i R_i sigma = OK disk0
    /\ potential_of_plane z_j z_i C_i sigma = OK plane
    /\ 0 <= magnitude (simplified disk) - magnitude (simplified disk0)
            - magnitude (simplified plane)
         <= magnitude (simplified C_i)
            * (magnitude (simplified z_j) - magnitude (simplified z_i)) ^ 2
            / (4 * magnitude (simplified sigma) * magnitude (simplified R_i)).
Proof.
  intros H1 H2 HC Hs HR.
  pose proof H1 as [_ Hs1]%units_eq_spec.
  pose proof H2 as [_ Hs2]%units_eq_spec.
  assert (H0 : units_eq (units z_i) (units z_i) = true)
    by (apply units_eq_spec; now split).
  do 3 eexists.
  split; [apply potential_of_disk_value; assumption|].
  split; [apply potential_of_disk_value; assumption|].
  split; [apply potential_of_plane_value; assumption|].
  rewrite !disk_value_si, plane_value_si by congruence.
  set (c := magnitude (simplified C_i)).
  set (s := magnitude (simplified sigma)).
  set (r := magnitude (simplified R_i)).
  set (d := magnitude (simplified z_j) - magnitude (simplified z_i)).
  assert (Hc : 0 <= c).
  { unfold c. cbn. pose proof (ten_pow_pos (scale10 (dimensionality C_i))). nra. }
  assert (Hs' : 0 < s).
  { unfold s. cbn. pose proof (ten_pow_pos (scale10 (dimensionality sigma))). nra. }
  assert (Hr : 0 < r).
  { unfold r. cbn. pose proof (ten_pow_pos (scale10 (dimensionality R_i))). nra. }
  rewrite Rminus_diag, Rabs_R0.
  replace (0 ^ 2 + r ^ 2) with (r * r) by ring.
  rewrite sqrt_square by lra.
  set (w := R_sqrt.sqrt (d ^ 2 + r ^ 2)).
  assert (Hw : 0 <= w) by apply sqrt_pos.
  assert (Hww : w * w = d ^ 2 + r ^ 2).
  { apply sqrt_sqrt. apply Rplus_le_le_0_compat; apply pow2_ge_0. }
  assert (Hwr : r <= w) by nra.
  assert (Hwd : w - r <= d ^ 2 / (2 * r)).
  { apply (Rmult_le_reg_r (2 * r)); [lra|].
    unfold Rdiv. rewrite Rmult_assoc, Rinv_l by lra. nra. }
  assert (Hq : 0 <= c / (2 * s)).
  { apply Rmult_le_pos; [exact Hc|]. left. apply Rinv_0_lt_compat. lra. }
  replace (c / (2 * s) * (w - Rabs d) - c / (2 * s) * (r - 0)
           - - c / (2 * s) * Rabs d)
    with (c / (2 * s) * (w - r)) by (unfold Rdiv; ring).
  replace (c * d ^ 2 / (4 * s * r)) with (c / (2 * s) * (d ^ 2 / (2 * r)))
    by (field; lra).
  split; nra.
Qed.

Lemma units_eq_same_dim (a b c d : Quantity) :
  dimensionality a = dimensionality c ->
  dimensionality b = dimensionality d ->
  units_eq (units a) (units b) = units_eq (units c) (units d).
Proof. unfold units_eq, units. cbn. now intros -> ->. Qed.

(** Moving the field point and the source by the same amount changes
    nothing: the plane and disk kernels see the positions through their
    difference only (exceptions included). *)
Theorem kernels_translation_invariant (z_j z_i C_i R_i sigma : Quantity) (t : R) :
  potential_of_plane (moved z_j t) (moved z_i t) C_i sigma
  = potential_of_plane z_j z_i C_i sigma
  /\ potential_of_disk (moved z_j t) (moved z_i t) C_i R_i sigma
     = potential_of_disk z_j z_i C_i R_i sigma.
Proof.
  assert (Hu : units_eq (units (moved z_j t)) (units (moved z_i t))
               = units_eq (units z_j) (units z_i))
    by (apply units_eq_same_dim; reflexivity).
  assert (Hr : units_eq (units (moved z_i t)) (units R_i)
               = units_eq (units z_i) (units R_i))
    by (apply units_eq_same_dim; reflexivity).
  assert (Hm : magnitude (moved z_j t) - magnitude (moved z_i t)
               = magnitude z_j - magnitude z_i)
    by (cbn; ring).
  destruct (units_eq (units z_j) (units z_i)) eqn:H1.
  - split.
    + rewrite !potential_of_plane_value by assumption. now rewrite Hm.
    + destruct (units_eq (units z_i) (units R_i)) eqn:H2.
      * rewrite !potential_of_disk_value by assumption. now rewrite Hm.
      * unfold potential_of_disk. now rewrite Hu, Hr, H1, H2.
  - unfold potential_of_plane, potential_of_disk. now rewrite Hu, H1.
Qed.

(** A density [a] times as large: the kernels return a potential [a] times
    as large, and raise as before. *)
Lemma potential_of_plane_scaled (z_j z_i C_i sigma : Quantity) (a : R) :
  potential_of_plane z_j z_i (scalar_mul a C_i) sigma
  = result_map (scalar_mul a) (potential_of_plane z_j z_i C_i sigma).
Proof.
  destruct (units_eq (units z_j) (units z_i)) eqn:H1.
  - rewrite !potential_of_plane_value by exact H1.
    cbn [result_map]. f_equal. unfold pq.mul, pq.div, pq.neg, scalar_mul.
    cbn [magnitude dimensionality]. f_equal. unfold Rdiv. ring.
  - unfold potential_of_plane. now rewrite H1.
Qed.

Lemma potential_of_disk_scaled (z_j z_i C_i R_i sigma : Quantity) (a : R) :
  potential_of_disk z_j z_i (scalar_mul a C_i) R_i sigma
  = result_map (scalar_mul a) (potential_of_disk z_j z_i C_i R_i sigma).
Proof.
  destruct (units_eq (units z_j) (units z_i)
            && units_eq (units z_i) (units R_i)) eqn:Hg.
  - apply andb_true_iff in Hg as [H1 H2].
    rewrite !potential_of_disk_value by assumption.
    cbn [result_map]. f_equal. unfold pq.mul, pq.div, scalar_mul.
    cbn [magnitude dimensionality]. f_equal. unfold Rdiv. ring.
  - unfold potential_of_disk. now rewrite Hg.
Qed.

Lemma potential_of_cylinder_scaled (quad : (R -> R) -> R -> R -> R * R)
    (z_j z_i C_i R_i h_i sigma : Quantity) (a : R) :
  potential_of_cylinder quad z_j z_i (scalar_mul a C_i) R_i h_i sigma
  = result_map (scalar_mul a)
      (potential_of_cylinder quad z_j z_i C_i R_i h_i sigma).
Proof.
  destruct (cylinder_guard z_j z_i R_i h_i) eqn:Hg.
  - destruct (Req_dec_T (magnitude sigma) 0) as [Hs|Hs].
    + now rewrite !potential_of_cylinder_zero_sigma.
    + pose proof Hg as Hg'. unfold cylinder_guard in Hg'.
      apply andb_true_iff in Hg' as [Hg' H3].
      apply andb_true_iff in Hg' as [H1 H2].
      rewrite !potential_of_cylinder_value by assumption.
      cbn [result_map]. f_equal. unfold scalar_mul.
      cbn [magnitude dimensionality]. f_equal. ring.
  - now rewrite !potential_of_cylinder_guard.
Qed.

(** The three kernels are linear in the density: a density [a] times as
    large gives a potential [a] times as large, and the potential of the sum
    of two densities is the sum of their potentials; an exception of the
    kernel is not affected by the density. *)
Theorem kernels_linear_in_density (quad : (R -> R) -> R -> R -> R * R)
    (z_j z_i C_i R_i h_i sigma : Quantity) (a c c' : R) (d : Dimensionality) :
  potential_of_plane z_j z_i (scalar_mul a C_i) sigma
  = result_map (scalar_mul a) (potential_of_plane z_j z_i C_i sigma)
  /\ potential_of_disk z_j z_i (scalar_mul a C_i) R_i sigma
     = result_map (scalar_mul a) (potential_of_disk z_j z_i C_i R_i sigma)
  /\ potential_of_cylinder quad z_j z_i (scalar_mul a C_i) R_i h_i sigma
     = result_map (scalar_mul a)
         (potential_of_cylinder quad z_j z_i C_i R_i h_i sigma)
  /\ potential_of_plane z_j z_i (mkQ (c + c') d) sigma
     = (let* phi := potential_of_plane z_j z_i (mkQ c d) sigma in
        let* phi' := potential_of_plane z_j z_i (mkQ c' d) sigma in
        OK (q_plus phi phi'))
  /\ potential_of_disk z_j z_i (mkQ (c + c') d) R_i sigma
     = (let* phi := potential_of_disk z_j z_i (mkQ c d) R_i sigma in
        let* phi' := potential_of_disk z_j z_i (mkQ c' d) R_i sigma in
        OK (q_plus phi phi'))
  /\ potential_of_cylinder quad z_j z_i (mkQ (c + c') d) R_i h_i sigma
     = (let* phi := potential_of_cylinder quad z_j z_i (mkQ c d) R_i h_i sigma in
        let* phi' := potential_of_cylinder quad z_j z_i (mkQ c' d) R_i h_i
                       sigma in
        OK (q_plus phi phi')).
Proof.
  assert (Hplane :
            forall C, units_eq (units z_j) (units z_i) = false ->
                      potential_of_plane z_j z_i C sigma = Raise AssertionError).
  { intros C E. unfold potential_of_plane. now rewrite E. }
  assert (Hdisk :
            forall C, units_eq (units z_j) (units z_i)
                      && units_eq (units z_i) (units R_i) = false ->
                      potential_of_disk z_j z_i C R_i sigma = Raise AssertionError).
  { intros C E. unfold potential_of_disk. now rewrite E. }
  repeat apply conj.
  - apply potential_of_plane_scaled.
  - apply potential_of_disk_scaled.
  - apply potential_of_cylinder_scaled.
  - destruct (units_eq (units z_j) (units z_i)) eqn:H1.
    + rewrite !potential_of_plane_value by exact H1.
      cbn [bind]. f_equal. unfold pq.mul, pq.div, pq.neg, scalar_mul, q_plus.
      cbn [magnitude dimensionality]. f_equal. unfold Rdiv. ring.
    + now rewrite !Hplane.
  - destruct (units_eq (units z_j) (units z_i)
              && units_eq (units z_i) (units R_i)) eqn:Hg.
    + apply andb_true_iff in Hg as [H1 H2].
      rewrite !potential_of_disk_value by assumption.
      cbn [bind]. f_equal. unfold pq.mul, pq.div, scalar_mul, q_plus.
      cbn [magnitude dimensionality]. f_equal. unfold Rdiv. ring.
    + now rewrite !Hdisk.
  - destruct (cylinder_guard z_j z_i R_i h_i) eqn:Hg.
    + destruct (Req_dec_T (magnitude sigma) 0) as [Hs|Hs].
      * now rewrite !potential_of_cylinder_zero_sigma.
      * pose proof Hg as Hg'. unfold cylinder_guard in Hg'.
        apply andb_true_iff in Hg' as [Hg' H3].
        apply andb_true_iff in Hg' as [H1 H2].
        rewrite !potential_of_cylinder_value by assumption.
        cbn [bind]. f_equal. unfold q_plus.
        cbn [magnitude dimensionality]. f_equal. ring.
    + now rewrite !potential_of_cylinder_guard.
Qed.

(** A rescaled quantity denotes the same physical quantity. *)
Lemma rescale_si (q q' : Quantity) (d : Dimensionality) :
  rescale q d = OK q' ->
  dimensionality q' = d
  /\ dim_simplified d = dim_simplified (dimensionality q)
  /\ magnitude (simplified q') = magnitude (simplified q).
Proof.
  unfold rescale.
  destruct (dim_eqb _ _) eqn:E; [|discriminate].
  apply dim_eqb_eq in E. intros [= <-]. cbn [dimensionality magnitude simplified].
  split; [reflexivity|]. split; [now symmetry|].
  rewrite ten_pow_sub. field. apply Rgt_not_eq, ten_pow_pos.
Qed.

(** Unit invariance of the plane and disk kernels: when the positions and
    the radius are re-expressed in one other unit of length, and the
    density and the conductivity in other units of their dimensions, the
    kernels return the same potential (same magnitude in SI base units,
    same dimension). *)
Theorem kernels_unit_invariant
    (z_j z_i C_i R_i sigma z_j' z_i' C_i' R_i' sigma' : Quantity)
    (dz dC ds : Dimensionality) :
  units_eq (units z_j) (units z_i) = true ->
  units_eq (units z_i) (units R_i) = true ->
  rescale z_j dz = OK z_j' ->
  rescale z_i dz = OK z_i' ->
  rescale R_i dz = OK R_i' ->
  rescale C_i dC = OK C_i' ->
  rescale sigma ds = OK sigma' ->
  (exists phi phi' : Quantity,
      potential_of_plane z_j z_i C_i sigma = OK phi
      /\ potential_of_plane z_j' z_i' C_i' sigma' = OK phi'
      /\ magnitude (simplified phi') = magnitude (simplified phi)
      /\ dimensionality (simplified phi') = dimensionality (simplified phi))
  /\ (exists phi phi' : Quantity,
      potential_of_disk z_j z_i C_i R_i sigma = OK phi
      /\ potential_of_disk z_j' z_i' C_i' R_i' sigma' = OK phi'
      /\ magnitude (simplified phi') = magnitude (simplified phi)
      /\ dimensionality (simplified phi') = dimensionality (simplified phi)).
Proof.
  intros H1 H2 (Dj & Ej & Sj)%rescale_si (Di & Ei & Si)%rescale_si
         (Dr & Er & Sr)%rescale_si (Dc & Ec & Sc)%rescale_si
         (Ds & Es & Ss)%rescale_si.
  pose proof H1 as [_ Hs1]%units_eq_spec.
  pose proof H2 as [_ Hs2]%units_eq_spec.
  assert (H1' : units_eq (units z_j') (units z_i') = true)
    by (apply units_eq_spec; rewrite Dj, Di; now split).
  assert (H2' : units_eq (units z_i') (units R_i') = true)
    by (apply units_eq_spec; rewrite Di, Dr; now split).
  pose proof H1' as [_ Hs1']%units_eq_spec.
  pose proof H2' as [_ Hs2']%units_eq_spec.
  assert (Hdim :
            dim_mul (dim_div (dim_simplified (dimensionality C_i'))
                             (dim_simplified (dimensionality sigma')))
                    (dim_simplified (dimensionality z_j'))
            = dim_mul (dim_div (dim_simplified (dimensionality C_i))
                               (dim_simplified (dimensionality sigma)))
                      (dim_simplified (dimensionality z_j)))
    by (rewrite Dj, Dc, Ds, Ej, Ec, Es; reflexivity).
  split.
  - do 2 eexists.
    split; [apply potential_of_plane_value; assumption|].
    split; [apply potential_of_plane_value; assumption|].
    split.
    + rewrite !plane_value_si by assumption. now rewrite Sj, Si, Sc, Ss.
    + cbn [simplified pq.mul pq.div pq.neg scalar_mul pq.abs dimensionality].
      rewrite !dim_simplified_mul, !dim_simplified_div, !dim_simplified_idem.
      exact Hdim.
  - do 2 eexists.
    split; [apply potential_of_disk_value; assumption|].
    split; [apply potential_of_disk_value; assumption|].
    split.
    + rewrite !disk_value_si by assumption. now rewrite Sj, Si, Sr, Sc, Ss.
    + cbn [simplified pq.mul pq.div scalar_mul dimensionality].
      rewrite !dim_simplified_mul, !dim_simplified_div, !dim_simplified_idem.
      exact Hdim.
Qed.

(** ** More on the synthesizers *)

(** Whatever the three synthesizers return is a trace in volts with one
    value per electrode, paired with the density array they were given. *)
Theorem synthesizers_shape (quad : (R -> R) -> R -> R -> R * R)
    (z_j z_i C_i R_i h_i : QArray) (sigma : Quantity) (trace C : QArray) :
  (get_lfp_of_planes z_j z_i C_i sigma = OK (trace, C)
   \/ get_lfp_of_disks z_j z_i C_i R_i sigma = OK (trace, C)
   \/ get_lfp_of_cylinders quad z_j z_i C_i R_i h_i sigma = OK (trace, C)) ->
  C = C_i
  /\ a_dimensionality trace = dimensionality pq.V
  /\ size trace = size z_j.
Proof.
  assert (Hz : size (zeros (size z_j) pq.V) = size z_j).
  { unfold size, zeros; cbn. apply length_replicate. }
  unfold get_lfp_of_planes, get_lfp_of_disks, get_lfp_of_cylinders.
  intros [H|[H|H]];
    apply bind_OK in H as (t & Ht & [= <- <-]);
    apply accumulate_shape in Ht as [Hd Hs];
    (split; [reflexivity|]; split; [exact Hd | congruence]).
Qed.

Lemma accumulate_no_electrodes
    (call : nat -> Quantity -> Quantity -> result Quantity)
    (z_j z_i phi : QArray) :
  magnitudes z_j = [] -> accumulate call z_j z_i phi = OK phi.
Proof.
  intros E. unfold accumulate, elements at 1. rewrite E. cbn [map].
  generalize 0%nat. induction (elements z_i) as [|zi l IH]; intros n; cbn;
    [reflexivity | apply IH].
Qed.

(** Without electrodes the three synthesizers return the empty trace and
    look at nothing else: source and density arrays of any length and in
    any unit go through.  Without sources they return a trace of zeros. *)
Theorem synthesizers_on_empty_arrays (quad : (R -> R) -> R -> R -> R * R)
    (z_j z_i C_i R_i h_i : QArray) (sigma : Quantity) :
  (magnitudes z_j = [] ->
   get_lfp_of_planes z_j z_i C_i sigma
   = OK (mkQA [] (dimensionality pq.V), C_i)
   /\ get_lfp_of_disks z_j z_i C_i R_i sigma
      = OK (mkQA [] (dimensionality pq.V), C_i)
   /\ get_lfp_of_cylinders quad z_j z_i C_i R_i h_i sigma
      = OK (mkQA [] (dimensionality pq.V), C_i))
  /\ (magnitudes z_i = [] ->
      get_lfp_of_planes z_j z_i C_i sigma
      = OK (mkQA (replicate (size z_j) 0) (dimensionality pq.V), C_i)
      /\ get_lfp_of_disks z_j z_i C_i R_i sigma
         = OK (mkQA (replicate (size z_j) 0) (dimensionality pq.V), C_i)
      /\ get_lfp_of_cylinders quad z_j z_i C_i R_i h_i sigma
         = OK (mkQA (replicate (size z_j) 0) (dimensionality pq.V), C_i)).
Proof.
  split; intros E.
  - unfold get_lfp_of_planes, get_lfp_of_disks, get_lfp_of_cylinders.
    rewrite !accumulate_no_electrodes by exact E.
    unfold size, zeros. rewrite E. cbn. auto.
  - unfold get_lfp_of_planes, get_lfp_of_disks, get_lfp_of_cylinders,
      accumulate, elements at 2 4 6.
    rewrite E. cbn [map for_enumerate bind].
    unfold zeros. cbn [magnitude pq.V dimensionality].
    rewrite Rmult_0_l. auto.
Qed.

(** The loop over the electrodes, for one source, as far as [l] reaches:
    the elements from position [length pre] on receive the potentials of
    the electrodes in [l], the rest stays. *)
Lemma electrode_loop_rest (c : Quantity -> result Quantity) (l : list Quantity) :
  forall pre mid rest : list R,
    length mid = length l ->
    (forall zj, In zj l ->
       exists k, c zj = OK k
                 /\ dim_simplified (dimensionality k)
                    = dim_simplified (dimensionality pq.V)) ->
    for_enumerate (fun phi_j j zj => iadd_item phi_j j (c zj))
                  (length pre) l
                  (mkQA (pre ++ mid ++ rest) (dimensionality pq.V))
    = OK (mkQA (pre ++ zip_with (fun x zj => x + volts (c zj)) mid l ++ rest)
               (dimensionality pq.V)).
Proof.
  induction l as [|zj l IH]; intros pre mid rest Hlen Hc.
  - destruct mid; [reflexivity | discriminate].
  - destruct mid as [|x mid]; [discriminate|].
    injection Hlen as Hlen.
    destruct (Hc zj (or_introl eq_refl)) as (k & Hk & Hdim).
    cbn [for_enumerate zip_with app].
    rewrite Hk, iadd_item_middle by exact Hdim. cbn [bind].
    rewrite (cons_middle _ pre (mid ++ rest)), app_assoc.
    replace (Datatypes.S (length pre)) with (length (pre ++ [x + volts (OK k)]))
      by (rewrite length_app; cbn; lia).
    rewrite IH; [|exact Hlen|intros z Hz; apply Hc; now right].
    now rewrite <- app_assoc.
Qed.

(** [phi_j[j] += rhs] fails as [rhs] does. *)
Lemma iadd_item_fails (pre rest : list R) (x : R) (r : result Quantity)
    (e : exception) :
  fails_with r e ->
  iadd_item (mkQA (pre ++ x :: rest) (dimensionality pq.V)) (length pre) r
  = Raise e.
Proof.
  intros [->|(-> & k & -> & Hk)];
    unfold iadd_item, getitem; cbn [magnitudes a_dimensionality];
    rewrite list_lookup_middle by reflexivity; cbn [bind]; [reflexivity|].
  unfold pq.add, rescale. cbn [dimensionality].
  destruct (dim_eqb _ _) eqn:E; [|reflexivity].
  apply dim_eqb_eq in E. contradiction.
Qed.

(** The loop over the electrodes stops at the first call that fails. *)
Lemma electrode_loop_fails (c : Quantity -> result Quantity)
    (E : list Quantity) (M1 : list R) (j : nat) (zj : Quantity) (e : exception) :
  length M1 = length E ->
  E !! j = Some zj ->
  (forall j' zj', (j' < j)%nat -> E !! j' = Some zj' ->
     exists k, c zj' = OK k
               /\ dim_simplified (dimensionality k)
                  = dim_simplified (dimensionality pq.V)) ->
  fails_with (c zj) e ->
  for_enumerate (fun phi_j j zj => iadd_item phi_j j (c zj)) 0%nat E
                (mkQA M1 (dimensionality pq.V))
  = Raise e.
Proof.
  intros Hlen Hj Hbefore Hfail.
  pose proof (lookup_lt_Some _ _ _ Hj) as Hlt.
  rewrite <- (take_drop_middle E j zj Hj).
  rewrite for_enumerate_app.
  rewrite <- (take_drop j M1) at 1.
  pose proof (electrode_loop_rest c (take j E) [] (take j M1) (drop j M1)) as L.
  cbn [app length] in L. rewrite L; clear L.
  - cbn [bind Nat.add].
    destruct (drop j M1) as [|y rest] eqn:Hdrop.
    { apply (f_equal length) in Hdrop. rewrite length_drop in Hdrop.
      cbn in Hdrop. lia. }
    cbn [for_enumerate].
    replace (length (take j E))
      with (length (zip_with (fun x zj0 => x + volts (c zj0))
                             (take j M1) (take j E)))
      by (rewrite length_zip_with, !length_take; lia).
    now rewrite (iadd_item_fails _ _ _ _ e Hfail).
  - rewrite !length_take. lia.
  - intros z [j' Hz]%list_elem_of_In%list_elem_of_lookup.
    pose proof (lookup_lt_Some _ _ _ Hz) as Hj'. rewrite length_take in Hj'.
    rewrite lookup_take_lt in Hz by lia.
    apply (Hbefore j' z); [lia | exact Hz].
Qed.

(** The loop nest stops at the first call that fails, in the order of the
    loops. *)
Lemma accumulate_first_failure
    (call : nat -> Quantity -> Quantity -> result Quantity)
    (z_j z_i : QArray) (n j : nat) (zi zj : Quantity) (e : exception) :
  elements z_i !! n = Some zi ->
  elements z_j !! j = Some zj ->
  returns_potentials_before call z_j z_i n j ->
  fails_with (call n zj zi) e ->
  accumulate call z_j z_i (zeros (size z_j) pq.V) = Raise e.
Proof.
  destruct z_i as [l d]. intros Hn Hj Hbefore Hfail.
  unfold elements in Hn. cbn [magnitudes a_dimensionality] in Hn.
  apply list_lookup_fmap_Some in Hn as (x & -> & Hx).
  pose proof (lookup_lt_Some _ _ _ Hx) as Hlt.
  assert (Hsplit : mkQA l d = concat (mkQA (take n l) d) (mkQA (drop n l) d)).
  { unfold concat. cbn. now rewrite take_drop. }
  rewrite Hsplit, accumulate_concat by reflexivity.
  rewrite accumulate_superposition.
  - cbn [bind]. unfold size. cbn [magnitudes].
    rewrite length_take, Nat.min_l by lia.
    rewrite (drop_S l x n Hx).
    unfold accumulate.
    change (elements (mkQA (x :: drop (Datatypes.S n) l) d))
      with (mkQ x d :: elements (mkQA (drop (Datatypes.S n) l) d)).
    cbn [for_enumerate]. rewrite Nat.add_0_r.
    rewrite (electrode_loop_fails (fun zj0 => call n zj0 (mkQ x d))
               (elements z_j) _ j zj e); [reflexivity | | exact Hj | | exact Hfail].
    + now rewrite length_map.
    + intros j' zj' Hj' Hz. apply (Hbefore n j' (mkQ x d) zj'); [|exact Hz|lia].
      unfold elements. cbn [magnitudes a_dimensionality].
      now rewrite list_lookup_fmap, Hx.
  - intros i' j' zi' zj' Hi' Hz.
    unfold elements in Hi'. cbn [magnitudes a_dimensionality] in Hi'.
    apply list_lookup_fmap_Some in Hi' as (y & -> & Hy).
    pose proof (lookup_lt_Some _ _ _ Hy) as Hi'lt. rewrite length_take in Hi'lt.
    rewrite lookup_take_lt in Hy by lia.
    apply (Hbefore i' j' (mkQ y d) zj'); [|exact Hz|lia].
    unfold elements. cbn [magnitudes a_dimensionality].
    now rewrite list_lookup_fmap, Hy.
Qed.

(** The three synthesizers raise the exception of the first call that
    fails, in the order of the loops (sources outermost): the exception of
    a subscript or of the kernel, or a [ValueError] when what the kernel
    returned does not convert to volts. *)
Theorem synthesizers_raise_first_failure (quad : (R -> R) -> R -> R -> R * R)
    (z_j z_i C_i R_i h_i : QArray) (sigma : Quantity)
    (n j : nat) (zi zj : Quantity) (e : exception) :
  elements z_i !! n = Some zi ->
  elements z_j !! j = Some zj ->
  (returns_potentials_before (plane_call C_i sigma) z_j z_i n j ->
   fails_with (plane_call C_i sigma n zj zi) e ->
   get_lfp_of_planes z_j z_i C_i sigma = Raise e)
  /\ (returns_potentials_before (disk_call C_i R_i sigma) z_j z_i n j ->
      fails_with (disk_call C_i R_i sigma n zj zi) e ->
      get_lfp_of_disks z_j z_i C_i R_i sigma = Raise e)
  /\ (returns_potentials_before (cylinder_call quad C_i R_i h_i sigma) z_j z_i n j ->
      fails_with (cylinder_call quad C_i R_i h_i sigma n zj zi) e ->
      get_lfp_of_cylinders quad z_j z_i C_i R_i h_i sigma = Raise e).
Proof.
  intros Hn Hj.
  unfold get_lfp_of_planes, get_lfp_of_disks, get_lfp_of_cylinders.
  repeat split; intros Hb Hf;
    now rewrite (accumulate_first_failure _ z_j z_i n j zi zj e).
Qed.

(** A call of the plane loop body returns a potential when the positions
    are in one unit, the density exists and density times length over
    conductivity is a potential. *)
Lemma plane_call_potential (C_i : QArray) (sigma : Quantity)
    (dj di : Dimensionality) (i : nat) (x y : R) :
  units_eq (mkQ 1 dj) (mkQ 1 di) = true ->
  (i < size C_i)%nat ->
  dim_simplified (dim_mul (dim_div (a_dimensionality C_i) (dimensionality sigma)) dj)
  = dim_simplified (dimensionality pq.V) ->
  exists k : Quantity,
    plane_call C_i sigma i (mkQ y dj) (mkQ x di) = OK k
    /\ dim_simplified (dimensionality k) = dim_simplified (dimensionality pq.V).
Proof.
  intros Hu Hi Hdim.
  destruct (lookup_lt_is_Some_2 (magnitudes C_i) i Hi) as [c Hc].
  unfold plane_call, getitem. rewrite Hc. cbn [bind].
  rewrite potential_of_plane_value by exact Hu.
  eexists. split; [reflexivity|].
  cbn [simplified pq.mul pq.div pq.neg scalar_mul pq.abs dimensionality].
  rewrite dim_simplified_mul, dim_simplified_idem, <- dim_simplified_mul.
  exact Hdim.
Qed.

Lemma elements_lookup (a : QArray) (i : nat) (q : Quantity) :
  elements a !! i = Some q ->
  exists x, q = mkQ x (a_dimensionality a) /\ magnitudes a !! i = Some x.
Proof.
  unfold elements. intros (x & -> & Hx)%list_lookup_fmap_Some. eauto.
Qed.

Lemma elements_first (a : QArray) :
  (0 < size a)%nat ->
  exists x, elements a !! 0%nat = Some (mkQ x (a_dimensionality a)).
Proof.
  unfold size, elements. destruct (magnitudes a) as [|x l]; cbn; [lia|eauto].
Qed.

(** How the plane synthesizer fails on its inputs, for a non-empty
    electrode array: with an [IndexError] when the density array is shorter
    than the source array (the subscript comes before the kernel's guard);
    with the failure of the kernel's guard when there is a first source with
    its density and the electrode and source arrays are in different units;
    with a [ValueError] when the units agree and density times length over
    conductivity is not a potential. *)
Theorem get_lfp_of_planes_errors (z_j z_i C_i : QArray) (sigma : Quantity) :
  (0 < size z_j)%nat ->
  ((size C_i < size z_i)%nat ->
   size C_i = 0%nat
   \/ (units_eq (mkQ 1 (a_dimensionality z_j)) (mkQ 1 (a_dimensionality z_i)) = true
       /\ dim_simplified (dim_mul (dim_div (a_dimensionality C_i)
                                           (dimensionality sigma))
                                  (a_dimensionality z_j))
          = dim_simplified (dimensionality pq.V)) ->
   get_lfp_of_planes z_j z_i C_i sigma = Raise IndexError)
  /\ ((0 < size z_i)%nat -> (0 < size C_i)%nat ->
      units_eq (mkQ 1 (a_dimensionality z_j)) (mkQ 1 (a_dimensionality z_i)) = false ->
      get_lfp_of_planes z_j z_i C_i sigma = Raise AssertionError)
  /\ ((0 < size z_i)%nat -> (0 < size C_i)%nat ->
      units_eq (mkQ 1 (a_dimensionality z_j)) (mkQ 1 (a_dimensionality z_i)) = true ->
      dim_simplified (dim_mul (dim_div (a_dimensionality C_i)
                                       (dimensionality sigma))
                              (a_dimensionality z_j))
      <> dim_simplified (dimensionality pq.V) ->
      get_lfp_of_planes z_j z_i C_i sigma = Raise ValueError).
Proof.
  intros Hj. destruct (elements_first z_j Hj) as [y Hy].
  unfold get_lfp_of_planes. repeat split.
  - intros Hshort Hprev.
    destruct (lookup_lt_is_Some_2 (magnitudes z_i) (size C_i) Hshort) as [x Hx].
    rewrite (accumulate_first_failure _ z_j z_i (size C_i) 0%nat
               (mkQ x (a_dimensionality z_i)) (mkQ y (a_dimensionality z_j))
               IndexError); [reflexivity| |exact Hy| |].
    + unfold elements. now rewrite list_lookup_fmap, Hx.
    + intros i' j' zi' zj' (x' & -> & _)%elements_lookup
             (y' & -> & _)%elements_lookup [Hlt|[_ Hlt]]; [|lia].
      destruct Hprev as [H0|[Hu Hdim]]; [lia|].
      now apply plane_call_potential.
    + left. unfold plane_call, getitem.
      now rewrite lookup_ge_None_2.
  - intros Hi HC Hu.
    destruct (elements_first z_i Hi) as [x Hx].
    destruct (lookup_lt_is_Some_2 (magnitudes C_i) 0%nat HC) as [c Hc].
    rewrite (accumulate_first_failure _ z_j z_i 0%nat 0%nat
               (mkQ x (a_dimensionality z_i)) (mkQ y (a_dimensionality z_j))
               AssertionError); [reflexivity|exact Hx|exact Hy| |].
    + intros i' j' zi' zj' _ _ [Hlt|[_ Hlt]]; lia.
    + left. unfold plane_call, getitem. rewrite Hc. cbn [bind].
      unfold potential_of_plane, units. cbn [dimensionality].
      now rewrite Hu.
  - intros Hi HC Hu Hdim.
    destruct (elements_first z_i Hi) as [x Hx].
    destruct (lookup_lt_is_Some_2 (magnitudes C_i) 0%nat HC) as [c Hc].
    rewrite (accumulate_first_failure _ z_j z_i 0%nat 0%nat
               (mkQ x (a_dimensionality z_i)) (mkQ y (a_dimensionality z_j))
               ValueError); [reflexivity|exact Hx|exact Hy| |].
    + intros i' j' zi' zj' _ _ [Hlt|[_ Hlt]]; lia.
    + right. split; [reflexivity|].
      unfold plane_call, getitem. rewrite Hc. cbn [bind].
      rewrite potential_of_plane_value by exact Hu.
      eexists. split; [reflexivity|].
      cbn [simplified pq.mul pq.div pq.neg scalar_mul pq.abs dimensionality].
      rewrite dim_simplified_mul, dim_simplified_idem, <- dim_simplified_mul.
      exact Hdim.
Qed.

Lemma trace_add_comm (t1 t2 : QArray) :
  a_dimensionality t1 = a_dimensionality t2 ->
  trace_add t1 t2 = trace_add t2 t1.
Proof.
  unfold trace_add. intros ->. f_equal.
  generalize (magnitudes t2). induction (magnitudes t1) as [|x l IH];
    intros [|y k]; cbn; try reflexivity.
  now rewrite IH, Rplus_comm.
Qed.

(** Two blocks of sources in either order leave the same trace. *)
Lemma accumulate_blocks_swap
    (call1 call2 call12 call21 : nat -> Quantity -> Quantity -> result Quantity)
    (z_j a b : QArray) (t : QArray) :
  a_dimensionality b = a_dimensionality a ->
  (forall i zj zi, (i < size a)%nat -> call12 i zj zi = call1 i zj zi) ->
  (forall i zj zi, call12 (size a + i)%nat zj zi = call2 i zj zi) ->
  (forall i zj zi, (i < size b)%nat -> call21 i zj zi = call2 i zj zi) ->
  (forall i zj zi, call21 (size b + i)%nat zj zi = call1 i zj zi) ->
  accumulate call12 z_j (concat a b) (zeros (size z_j) pq.V) = OK t
  <-> accumulate call21 z_j (concat b a) (zeros (size z_j) pq.V) = OK t.
Proof.
  intros Hd H1 H2 H3 H4.
  rewrite (synth_additive call1 call2 call12) by assumption.
  rewrite (synth_additive call2 call1 call21) by (try assumption; now symmetry).
  destruct (accumulate call1 z_j a _) as [t1|e1] eqn:E1;
    destruct (accumulate call2 z_j b _) as [t2|e2] eqn:E2; cbn [bind];
    try (split; discriminate).
  apply accumulate_shape in E1 as [D1 _]. apply accumulate_shape in E2 as [D2 _].
  rewrite (trace_add_comm t1 t2) by congruence. reflexivity.
Qed.

Lemma synth_returns_iff (r : result QArray) (C trace : QArray) :
  (exists C', (let* phi_j := r in OK (phi_j, C)) = OK (trace, C'))
  <-> r = OK trace.
Proof.
  destruct r as [t|e]; cbn [bind].
  - split; [intros [C' [= -> _]]; reflexivity | intros [= ->]; eauto].
  - split; [intros [C' E]; discriminate E | discriminate].
Qed.

(** The order of the sources does not matter: with two blocks of sources
    (positions with their densities, radii and heights) given in either
    order, the three synthesizers return the same trace, or both fail. *)
Theorem sources_order_irrelevant (quad : (R -> R) -> R -> R -> R * R)
    (z_j z_i z_i' C_i C_i' R_i R_i' h_i h_i' : QArray) (sigma : Quantity)
    (trace : QArray) :
  a_dimensionality z_i' = a_dimensionality z_i ->
  a_dimensionality C_i' = a_dimensionality C_i ->
  a_dimensionality R_i' = a_dimensionality R_i ->
  a_dimensionality h_i' = a_dimensionality h_i ->
  size C_i = size z_i /\ size R_i = size z_i /\ size h_i = size z_i ->
  size C_i' = size z_i' /\ size R_i' = size z_i' /\ size h_i' = size z_i' ->
  ((exists C, get_lfp_of_planes z_j (concat z_i z_i') (concat C_i C_i') sigma
              = OK (trace, C))
   <-> (exists C, get_lfp_of_planes z_j (concat z_i' z_i) (concat C_i' C_i) sigma
                  = OK (trace, C)))
  /\ ((exists C, get_lfp_of_disks z_j (concat z_i z_i') (concat C_i C_i')
                   (concat R_i R_i') sigma = OK (trace, C))
      <-> (exists C, get_lfp_of_disks z_j (concat z_i' z_i) (concat C_i' C_i)
                       (concat R_i' R_i) sigma = OK (trace, C)))
  /\ ((exists C, get_lfp_of_cylinders quad z_j (concat z_i z_i')
                   (concat C_i C_i') (concat R_i R_i') (concat h_i h_i') sigma
                 = OK (trace, C))
      <-> (exists C, get_lfp_of_cylinders quad z_j (concat z_i' z_i)
                       (concat C_i' C_i) (concat R_i' R_i) (concat h_i' h_i)
                       sigma
                     = OK (trace, C))).
Proof.
  intros Hz HC HR Hh (SC & SR & Sh) (SC' & SR' & Sh').
  assert (Hz' : a_dimensionality z_i = a_dimensionality z_i') by now symmetry.
  assert (HC' : a_dimensionality C_i = a_dimensionality C_i') by now symmetry.
  assert (HR' : a_dimensionality R_i = a_dimensionality R_i') by now symmetry.
  assert (Hh' : a_dimensionality h_i = a_dimensionality h_i') by now symmetry.
  unfold get_lfp_of_planes, get_lfp_of_disks, get_lfp_of_cylinders.
  rewrite !synth_returns_iff.
  split; [|split].
  - apply (accumulate_blocks_swap (plane_call C_i sigma) (plane_call C_i' sigma)
             _ _ z_j z_i z_i' trace Hz); intros i zj zi; try intros Hi;
      unfold plane_call; concat_items.
  - apply (accumulate_blocks_swap (disk_call C_i R_i sigma)
                                  (disk_call C_i' R_i' sigma)
             _ _ z_j z_i z_i' trace Hz); intros i zj zi; try intros Hi;
      unfold disk_call; concat_items.
  - apply (accumulate_blocks_swap (cylinder_call quad C_i R_i h_i sigma)
                                  (cylinder_call quad C_i' R_i' h_i' sigma)
             _ _ z_j z_i z_i' trace Hz); intros i zj zi; try intros Hi;
      unfold cylinder_call; concat_items.
Qed.

(** Two loops whose bodies are related through a transformation of the
    state are related through it. *)
Lemma for_enumerate_related {X St : Type} (T : St -> St)
    (body body' : St -> nat -> X -> result St) (l : list X) (i : nat) (st : St) :
  (forall s j x, body' (T s) j x = let* s' := body s j x in OK (T s')) ->
  for_enumerate body' i l (T st)
  = let* st' := for_enumerate body i l st in OK (T st').
Proof.
  intros Hbody. revert i st. induction l as [|x l IH]; intros i st; cbn.
  - reflexivity.
  - rewrite Hbody. destruct (body st i x) as [s'|e]; cbn; [apply IH | reflexivity].
Qed.

Lemma iadd_item_scaled (a : R) (phi : QArray) (j : nat) (rhs : result Quantity) :
  iadd_item (array_scalar_mul a phi) j (result_map (scalar_mul a) rhs)
  = let* phi' := iadd_item phi j rhs in OK (array_scalar_mul a phi').
Proof.
  unfold iadd_item, getitem, array_scalar_mul.
  cbn [magnitudes a_dimensionality].
  change (map (fun y => a * y) (magnitudes phi))
    with ((fun y => a * y) <$> magnitudes phi).
  rewrite list_lookup_fmap.
  destruct (magnitudes phi !! j) as [x|] eqn:Hx; cbn; [|reflexivity].
  destruct rhs as [k|e]; cbn; [|reflexivity].
  unfold pq.add, rescale. cbn [dimensionality magnitude scalar_mul].
  destruct (dim_eqb _ _); cbn; [|reflexivity].
  unfold setitem. cbn [magnitudes a_dimensionality dimensionality magnitude].
  rewrite !rescale_same by reflexivity. cbn [bind magnitude].
  rewrite length_fmap.
  destruct (decide (j < length (magnitudes phi))%nat) as [Hlt|Hge]; cbn;
    [|reflexivity].
  do 2 f_equal.
  change (map (fun y => a * y) (<[j:=x + magnitude k * powerRZ 10 (scale10 (dimensionality k) - scale10 (a_dimensionality phi))]> (magnitudes phi)))
    with ((fun y => a * y) <$> (<[j:=x + magnitude k * powerRZ 10 (scale10 (dimensionality k) - scale10 (a_dimensionality phi))]> (magnitudes phi))).
  rewrite list_fmap_insert.
  f_equal. ring.
Qed.

Lemma accumulate_scaled (a : R)
    (call call' : nat -> Quantity -> Quantity -> result Quantity)
    (z_j z_i phi : QArray) :
  (forall i zj zi, call' i zj zi = result_map (scalar_mul a) (call i zj zi)) ->
  accumulate call' z_j z_i (array_scalar_mul a phi)
  = let* phi' := accumulate call z_j z_i phi in OK (array_scalar_mul a phi').
Proof.
  intros Hcall. unfold accumulate.
  apply (for_enumerate_related (array_scalar_mul a)). intros s i zi.
  apply (for_enumerate_related (array_scalar_mul a)). intros t j zj.
  rewrite Hcall. apply iadd_item_scaled.
Qed.

Lemma zeros_scaled (a : R) (n : nat) :
  array_scalar_mul a (zeros n pq.V) = zeros n pq.V.
Proof.
  unfold array_scalar_mul, zeros. cbn [magnitudes a_dimensionality].
  f_equal. induction n as [|n IH]; cbn; [reflexivity|].
  f_equal; [ring | exact IH].
Qed.

Lemma getitem_scaled (a : R) (C_i : QArray) (i : nat) :
  getitem (array_scalar_mul a C_i) i
  = result_map (scalar_mul a) (getitem C_i i).
Proof.
  unfold getitem, array_scalar_mul. cbn [magnitudes a_dimensionality].
  change (map (fun y => a * y) (magnitudes C_i))
    with ((fun y => a * y) <$> magnitudes C_i).
  rewrite list_lookup_fmap.
  destruct (magnitudes C_i !! i); reflexivity.
Qed.

Lemma synth_scaled (a : R)
    (call call' : nat -> Quantity -> Quantity -> result Quantity)
    (z_j z_i C_i : QArray) :
  (forall i zj zi, call' i zj zi = result_map (scalar_mul a) (call i zj zi)) ->
  (let* phi_j := accumulate call' z_j z_i (zeros (size z_j) pq.V) in
   OK (phi_j, array_scalar_mul a C_i))
  = result_map (fun r => (array_scalar_mul a (fst r), array_scalar_mul a (snd r)))
      (let* phi_j := accumulate call z_j z_i (zeros (size z_j) pq.V) in
       OK (phi_j, C_i)).
Proof.
  intros Hcall.
  rewrite <- (zeros_scaled a) at 1.
  rewrite (accumulate_scaled a call call') by exact Hcall.
  destruct (accumulate call z_j z_i _); reflexivity.
Qed.

(** The trace is linear in the densities: with the density array
    multiplied by a number, the three synthesizers return the trace
    multiplied by that number (and the multiplied density array), and raise
    as before. *)
Theorem trace_scales_with_density (quad : (R -> R) -> R -> R -> R * R)
    (z_j z_i C_i R_i h_i : QArray) (sigma : Quantity) (a : R) :
  get_lfp_of_planes z_j z_i (array_scalar_mul a C_i) sigma
  = result_map (fun r => (array_scalar_mul a (fst r), array_scalar_mul a (snd r)))
      (get_lfp_of_planes z_j z_i C_i sigma)
  /\ get_lfp_of_disks z_j z_i (array_scalar_mul a C_i) R_i sigma
     = result_map (fun r => (array_scalar_mul a (fst r), array_scalar_mul a (snd r)))
         (get_lfp_of_disks z_j z_i C_i R_i sigma)
  /\ get_lfp_of_cylinders quad z_j z_i (array_scalar_mul a C_i) R_i h_i sigma
     = result_map (fun r => (array_scalar_mul a (fst r), array_scalar_mul a (snd r)))
         (get_lfp_of_cylinders quad z_j z_i C_i R_i h_i sigma).
Proof.
  unfold get_lfp_of_planes, get_lfp_of_disks, get_lfp_of_cylinders.
  repeat apply conj; apply synth_scaled; intros i zj zi.
  - unfold plane_call. rewrite getitem_scaled.
    destruct (getitem C_i i) as [C|e]; cbn [result_map bind]; [|reflexivity].
    apply potential_of_plane_scaled.
  - unfold disk_call. rewrite getitem_scaled.
    destruct (getitem C_i i) as [C|e]; cbn [result_map bind]; [|reflexivity].
    destruct (getitem R_i i) as [Rq|e]; cbn [result_map bind]; [|reflexivity].
    apply potential_of_disk_scaled.
  - unfold cylinder_call. rewrite getitem_scaled.
    destruct (getitem C_i i) as [C|e]; cbn [result_map bind]; [|reflexivity].
    destruct (getitem R_i i) as [Rq|e]; cbn [result_map bind]; [|reflexivity].
    destruct (getitem h_i i) as [h|e]; cbn [result_map bind]; [|reflexivity].
    apply potential_of_cylinder_scaled.
Qed.

(** [gather] goes through an elementwise function. *)
Lemma gather_map (g : R -> R) (l : list R) (inds : list nat) (ms : list R) :
  gather l inds = OK ms -> gather (map g l) inds = OK (map g ms).
Proof.
  revert ms. induction inds as [|i inds IH]; intros ms; cbn.
  - now intros [= <-].
  - change (map g l) with (g <$> l). rewrite list_lookup_fmap.
    destruct (l !! i) as [x|]; cbn; [|discriminate].
    intros (xs & Hxs & [= <-])%bind_OK.
    change (g <$> l) with (map g l). now rewrite (IH xs Hxs).
Qed.

(** What [gather] returns are elements of the list. *)
Lemma gather_lookup (l : list R) (inds : list nat) (ms : list R) (j : nat) (x : R) :
  gather l inds = OK ms -> ms !! j = Some x -> exists i, l !! i = Some x.
Proof.
  revert ms j. induction inds as [|i inds IH]; intros ms j; cbn.
  - intros [= <-]. discriminate.
  - destruct (l !! i) as [y|] eqn:Hy; [|discriminate].
    intros (xs & Hxs & [= <-])%bind_OK. destruct j as [|j]; cbn.
    + intros [= <-]. eauto.
    + intros Hj. eapply IH; eassumption.
Qed.

Lemma returns_potentials_getitems
    (call : nat -> Quantity -> Quantity -> result Quantity)
    (z_j z_j' z_i : QArray) (inds : list nat) :
  getitems z_j inds = OK z_j' ->
  returns_potentials call z_j z_i ->
  returns_potentials call z_j' z_i.
Proof.
  unfold getitems. intros (ms & Hms & [= <-])%bind_OK Hret i j zi zj Hi Hj.
  apply elements_lookup in Hj as (x & -> & Hx). cbn [magnitudes a_dimensionality] in *.
  destruct (gather_lookup _ _ _ _ _ Hms Hx) as [j0 Hj0].
  apply (Hret i j0); [exact Hi|].
  unfold elements. change (map ?f ?l) with (f <$> l).
  now rewrite list_lookup_fmap, Hj0.
Qed.

(** The trace at a selection of the electrodes is the selection of the
    trace. *)
Lemma synth_getitems
    (call : nat -> Quantity -> Quantity -> result Quantity)
    (z_j z_j' z_i : QArray) (inds : list nat) :
  getitems z_j inds = OK z_j' ->
  returns_potentials call z_j z_i ->
  exists trace trace' : QArray,
    accumulate call z_j z_i (zeros (size z_j) pq.V) = OK trace
    /\ accumulate call z_j' z_i (zeros (size z_j') pq.V) = OK trace'
    /\ getitems trace inds = OK trace'.
Proof.
  intros Hsel Hret.
  pose proof (returns_potentials_getitems _ _ _ _ _ Hsel Hret) as Hret'.
  destruct z_i as [l d].
  do 2 eexists.
  split; [apply accumulate_superposition, Hret|].
  split; [apply accumulate_superposition, Hret'|].
  unfold getitems in *. apply bind_OK in Hsel as (ms & Hms & [= <-]).
  cbn [magnitudes a_dimensionality]. unfold elements.
  cbn [magnitudes a_dimensionality].
  rewrite !map_map.
  now rewrite (gather_map _ _ _ _ Hms).
Qed.

(** Electrodes do not influence one another: when every call returns a
    potential, the trace the three synthesizers return for a selection
    [z_j[inds]] of the electrodes is the selection [phi_j[inds]] of the
    trace for all the electrodes (the input of the tests on a
    non-contiguous electrode array). *)
Theorem electrodes_independent (quad : (R -> R) -> R -> R -> R * R)
    (z_j z_j' z_i C_i R_i h_i : QArray) (sigma : Quantity) (inds : list nat) :
  getitems z_j inds = OK z_j' ->
  (returns_potentials (plane_call C_i sigma) z_j z_i ->
   exists trace trace' : QArray,
     get_lfp_of_planes z_j z_i C_i sigma = OK (trace, C_i)
     /\ get_lfp_of_planes z_j' z_i C_i sigma = OK (trace', C_i)
     /\ getitems trace inds = OK trace')
  /\ (returns_potentials (disk_call C_i R_i sigma) z_j z_i ->
      exists trace trace' : QArray,
        get_lfp_of_disks z_j z_i C_i R_i sigma = OK (trace, C_i)
        /\ get_lfp_of_disks z_j' z_i C_i R_i sigma = OK (trace', C_i)
        /\ getitems trace inds = OK trace')
  /\ (returns_potentials (cylinder_call quad C_i R_i h_i sigma) z_j z_i ->
      exists trace trace' : QArray,
        get_lfp_of_cylinders quad z_j z_i C_i R_i h_i sigma = OK (trace, C_i)
        /\ get_lfp_of_cylinders quad z_j' z_i C_i R_i h_i sigma
           = OK (trace', C_i)
        /\ getitems trace inds = OK trace').
Proof.
  intros Hsel.
  unfold get_lfp_of_planes, get_lfp_of_disks, get_lfp_of_cylinders.
  repeat split; intros Hret;
    destruct (synth_getitems _ _ _ _ _ Hsel Hret) as (t & t' & -> & -> & Ht);
    exists t, t'; auto.
Qed.

(** [a[np.delete(np.arange(a.size), k)]] is [a] without its element
    [k]. *)
Lemma gather_seq (l : list R) (n k : nat) :
  (n + k <= length l)%nat ->
  gather l (seq n k) = OK (take k (drop n l)).
Proof.
  revert n. induction k as [|k IH]; intros n Hn; cbn [seq gather].
  - now rewrite take_0.
  - destruct (lookup_lt_is_Some_2 l n) as [x Hx]; [lia|].
    rewrite Hx, IH by lia. cbn [bind].
    now rewrite (drop_S l x n Hx).
Qed.

Lemma gather_app (l : list R) (i1 i2 : list nat) :
  gather l (i1 ++ i2)
  = let* m1 := gather l i1 in let* m2 := gather l i2 in OK (m1 ++ m2).
Proof.
  induction i1 as [|i i1 IH]; cbn [app gather].
  - cbn [bind]. destruct (gather l i2); reflexivity.
  - destruct (l !! i); [|reflexivity]. rewrite IH.
    destruct (gather l i1); cbn [bind]; [|reflexivity].
    destruct (gather l i2); reflexivity.
Qed.

(** The indices [np.delete(np.arange(a.size), k)] select all of [a] but
    its element [k], in order; an index [k] out of range raises. *)
Theorem getitems_delete_arange (a : QArray) (k : nat) :
  (let* inds := delete_arange (size a) k in getitems a inds)
  = if (k <? size a)%nat
    then OK (mkQA (delete k (magnitudes a)) (a_dimensionality a))
    else Raise IndexError.
Proof.
  unfold delete_arange, getitems, size.
  destruct (k <? length (magnitudes a))%nat eqn:Hk; [|reflexivity].
  apply Nat.ltb_lt in Hk. cbn [bind].
  rewrite gather_app, !gather_seq by lia. cbn [bind].
  do 2 f_equal. rewrite drop_0, delete_take_drop. f_equal.
  apply take_ge. rewrite length_drop. lia.
Qed.

(** A re-expression in another unit symbol of the same dimension, a
    thousand times smaller, with the magnitude a thousand times larger,
    denotes the same quantity. *)
Lemma reexpressed_si (x : R) (d : Dimensionality) (milli base : Quantity) :
  magnitude milli = 1 ->
  magnitude base = 1 ->
  dim_simplified (dimensionality milli) = dim_simplified (dimensionality base) ->
  scale10 (dimensionality milli) = (scale10 (dimensionality base) - 3)%Z ->
  simplified (mkQ (x * 1E3 * magnitude milli / magnitude base)
                  (dim_div (dim_mul d (dimensionality milli))
                           (dimensionality base)))
  = simplified (mkQ x d).
Proof.
  intros -> -> Hd Hs. unfold simplified. cbn [magnitude dimensionality].
  f_equal.
  - rewrite scale10_div, scale10_mul, Hs.
    replace (scale10 d + (scale10 (dimensionality base) - 3)
             - scale10 (dimensionality base))%Z
      with (scale10 d + - (3))%Z by lia.
    rewrite powerRZ_add by apply ten_neq_0.
    change (powerRZ 10 (- (3))) with (/ (10 * (10 * (10 * 1)))). field.
  - rewrite dim_simplified_div, dim_simplified_mul, Hd.
    destruct (dim_simplified d), (dim_simplified (dimensionality base)).
    unfold dim_div, dim_mul; cbn. f_equal; lia.
Qed.

(** The inputs the tests hand over in other units denote the same
    quantities: [phi_j*1E3*pq.mV/pq.V], [z_j*1E3*pq.mm/pq.m] and
    [sigma*1E3*pq.mS/pq.S] are, element by element and in SI base units,
    [phi_j], [z_j] and [sigma]; they are in millivolt, millimetre and
    millisiemens per metre when these are in volt, metre and siemens per
    metre. *)
Theorem test_rescalings_same_quantity (phi_j z_j : QArray) (sigma : Quantity) :
  simplified_elements (lfp_in_millivolt phi_j) = simplified_elements phi_j
  /\ simplified_elements (coord_in_millimetre z_j) = simplified_elements z_j
  /\ simplified (sigma_in_millisiemens sigma) = simplified sigma
  /\ (a_dimensionality phi_j = dimensionality pq.V ->
      a_dimensionality (lfp_in_millivolt phi_j) = dimensionality pq.mV)
  /\ (a_dimensionality z_j = dimensionality pq.m ->
      a_dimensionality (coord_in_millimetre z_j) = dimensionality pq.mm)
  /\ (dimensionality sigma = dimensionality (pq.div pq.S pq.m) ->
      dimensionality (sigma_in_millisiemens sigma)
      = dimensionality (pq.div pq.mS pq.m)).
Proof.
  repeat apply conj.
  - unfold simplified_elements, elements, lfp_in_millivolt, array_div,
      array_mul, array_mul_scalar.
    cbn [magnitudes a_dimensionality]. rewrite !map_map.
    apply map_ext. intros x.
    now apply (reexpressed_si x (a_dimensionality phi_j) pq.mV pq.V).
  - unfold simplified_elements, elements, coord_in_millimetre, array_div,
      array_mul, array_mul_scalar.
    cbn [magnitudes a_dimensionality]. rewrite !map_map.
    apply map_ext. intros x.
    now apply (reexpressed_si x (a_dimensionality z_j) pq.mm pq.m).
  - destruct sigma as [x d].
    now apply (reexpressed_si x d pq.mS pq.S).
  - intros E. unfold lfp_in_millivolt, array_div, array_mul, array_mul_scalar.
    cbn [a_dimensionality]. now rewrite E.
  - intros E. unfold coord_in_millimetre, array_div, array_mul, array_mul_scalar.
    cbn [a_dimensionality]. now rewrite E.
  - intros E. unfold sigma_in_millisiemens, pq.div, pq.mul, mul_scalar.
    cbn [dimensionality]. now rewrite E.
Qed.

Lemma si_magnitudes_lookup (a a' : QArray) (i : nat) (x : R) :
  si_magnitudes a' = si_magnitudes a ->
  magnitudes a !! i = Some x ->
  exists x', magnitudes a' !! i = Some x'
             /\ magnitude (simplified (mkQ x' (a_dimensionality a')))
                = magnitude (simplified (mkQ x (a_dimensionality a))).
Proof.
  unfold si_magnitudes. intros E Hx.
  apply (f_equal (fun l => l !! i)) in E.
  change (map ?f ?l) with (f <$> l) in E.
  rewrite !list_lookup_fmap, Hx in E. cbn in E.
  destruct (magnitudes a' !! i) as [x'|]; [|discriminate].
  injection E as E. eauto.
Qed.

Lemma si_magnitudes_size (a a' : QArray) :
  si_magnitudes a' = si_magnitudes a -> size a' = size a.
Proof.
  unfold si_magnitudes, size. intros E.
  apply (f_equal length) in E. now rewrite !length_map in E.
Qed.

(** Two loop nests whose calls return the same potentials, electrode by
    electrode and source by source, return the same trace. *)
Lemma synth_same_trace
    (call call' : nat -> Quantity -> Quantity -> result Quantity)
    (z_j z_j' z_i z_i' : QArray) :
  returns_potentials call z_j z_i ->
  returns_potentials call' z_j' z_i' ->
  size z_j' = size z_j ->
  size z_i' = size z_i ->
  (forall i j x x' y y',
     magnitudes z_i !! i = Some x -> magnitudes z_i' !! i = Some x' ->
     magnitudes z_j !! j = Some y -> magnitudes z_j' !! j = Some y' ->
     volts (call' i (mkQ y' (a_dimensionality z_j')) (mkQ x' (a_dimensionality z_i')))
     = volts (call i (mkQ y (a_dimensionality z_j)) (mkQ x (a_dimensionality z_i)))) ->
  exists trace : QArray,
    accumulate call z_j z_i (zeros (size z_j) pq.V) = OK trace
    /\ accumulate call' z_j' z_i' (zeros (size z_j') pq.V) = OK trace.
Proof.
  intros Hret Hret' Sj Si Hv.
  destruct z_i as [l d], z_i' as [l' d'].
  eexists. split; [apply accumulate_superposition, Hret|].
  rewrite accumulate_superposition by exact Hret'.
  do 2 f_equal. unfold size in *. cbn [magnitudes a_dimensionality] in *.
  apply list_eq. intros j. unfold elements.
  change (map ?f ?k) with (f <$> k). rewrite !list_lookup_fmap.
  destruct (magnitudes z_j !! j) as [y|] eqn:Hy.
  - destruct (lookup_lt_is_Some_2 (magnitudes z_j') j) as [y' Hy'].
    { apply lookup_lt_Some in Hy. lia. }
    rewrite Hy'. cbn. f_equal. rewrite Si.
    apply sum_upto_ext. intros i Hi.
    destruct (lookup_lt_is_Some_2 l i Hi) as [x Hx].
    destruct (lookup_lt_is_Some_2 l' i) as [x' Hx']; [lia|].
    unfold item. cbn [magnitudes a_dimensionality].
    rewrite (nth_lookup_Some _ _ _ _ Hx), (nth_lookup_Some _ _ _ _ Hx').
    now apply (Hv i j).
  - apply lookup_ge_None in Hy.
    now rewrite lookup_ge_None_2 by lia.
Qed.

(** Unit invariance of the plane and disk synthesizers: when the electrode
    positions, the source positions, the radii, the densities and the
    conductivity are given in other units and denote the same quantities,
    the synthesizers return the same trace, in volts. *)
Theorem traces_unit_invariant
    (z_j z_i C_i R_i z_j' z_i' C_i' R_i' : QArray) (sigma sigma' : Quantity) :
  same_quantities z_j z_j' ->
  same_quantities z_i z_i' ->
  same_quantities C_i C_i' ->
  same_quantities R_i R_i' ->
  simplified sigma' = simplified sigma ->
  units_eq (mkQ 1 (a_dimensionality z_j)) (mkQ 1 (a_dimensionality z_i)) = true ->
  units_eq (mkQ 1 (a_dimensionality z_i)) (mkQ 1 (a_dimensionality R_i)) = true ->
  units_eq (mkQ 1 (a_dimensionality z_j')) (mkQ 1 (a_dimensionality z_i')) = true ->
  units_eq (mkQ 1 (a_dimensionality z_i')) (mkQ 1 (a_dimensionality R_i')) = true ->
  (size z_i <= size C_i)%nat ->
  (size z_i <= size R_i)%nat ->
  dim_simplified (dim_mul (dim_div (a_dimensionality C_i) (dimensionality sigma))
                          (a_dimensionality z_j))
  = dim_simplified (dimensionality pq.V) ->
  exists trace trace_d : QArray,
    get_lfp_of_planes z_j z_i C_i sigma = OK (trace, C_i)
    /\ get_lfp_of_planes z_j' z_i' C_i' sigma' = OK (trace, C_i')
    /\ get_lfp_of_disks z_j z_i C_i R_i sigma = OK (trace_d, C_i)
    /\ get_lfp_of_disks z_j' z_i' C_i' R_i' sigma' = OK (trace_d, C_i').
Proof.
  intros [Dj Mj] [Di Mi] [DC MC] [DR MR] Hsig Hu HuR Hu' HuR' HsC HsR Hdim.
  pose proof (si_magnitudes_size _ _ Mj) as Sj.
  pose proof (si_magnitudes_size _ _ Mi) as Si.
  pose proof (si_magnitudes_size _ _ MC) as SC.
  pose proof (si_magnitudes_size _ _ MR) as SR.
  assert (Ds : dim_simplified (dimensionality sigma')
               = dim_simplified (dimensionality sigma))
    by (apply (f_equal dimensionality) in Hsig; exact Hsig).
  assert (Ms : magnitude (simplified sigma') = magnitude (simplified sigma))
    by now rewrite Hsig.
  assert (Hdim' :
            dim_simplified (dim_mul (dim_div (a_dimensionality C_i')
                                             (dimensionality sigma'))
                                    (a_dimensionality z_j'))
            = dim_simplified (dimensionality pq.V)).
  { rewrite <- Hdim.
    rewrite !dim_simplified_mul, !dim_simplified_div. congruence. }
  pose proof Hu as [_ Hs1]%units_eq_spec. pose proof HuR as [_ Hs2]%units_eq_spec.
  pose proof Hu' as [_ Hs1']%units_eq_spec.
  pose proof HuR' as [_ Hs2']%units_eq_spec.
  cbn [dimensionality] in Hs1, Hs2, Hs1', Hs2'.
  (* the plane synthesizer *)
  assert (Hplane : exists trace,
             accumulate (plane_call C_i sigma) z_j z_i (zeros (size z_j) pq.V)
             = OK trace
             /\ accumulate (plane_call C_i' sigma') z_j' z_i'
                  (zeros (size z_j') pq.V) = OK trace).
  { apply synth_same_trace; try assumption.
    - apply plane_call_returns; assumption.
    - apply plane_call_returns; [assumption | lia | assumption].
    - intros i j x x' y y' Hx Hx' Hy Hy'.
      destruct (lookup_lt_is_Some_2 (magnitudes C_i) i) as [c Hc].
      { apply lookup_lt_Some in Hx. unfold size in *. lia. }
      destruct (si_magnitudes_lookup _ _ _ _ MC Hc) as (c' & Hc' & Ec).
      destruct (si_magnitudes_lookup _ _ _ _ Mi Hx) as (x2 & Hx2 & Ex).
      destruct (si_magnitudes_lookup _ _ _ _ Mj Hy) as (y2 & Hy2 & Ey).
      assert (x2 = x') by congruence. assert (y2 = y') by congruence. subst.
      unfold plane_call, getitem. rewrite Hc, Hc'. cbn [bind].
      rewrite !potential_of_plane_value by assumption.
      cbn [volts]. rewrite !plane_value_si by assumption.
      now rewrite Ec, Ex, Ey, Ms. }
  (* the disk synthesizer *)
  assert (Hret_d : forall (zj zi C R : QArray) (s : Quantity),
             units_eq (mkQ 1 (a_dimensionality zj)) (mkQ 1 (a_dimensionality zi)) = true ->
             units_eq (mkQ 1 (a_dimensionality zi)) (mkQ 1 (a_dimensionality R)) = true ->
             (size zi <= size C)%nat -> (size zi <= size R)%nat ->
             dim_simplified (dim_mul (dim_div (a_dimensionality C) (dimensionality s))
                                     (a_dimensionality zj))
             = dim_simplified (dimensionality pq.V) ->
             returns_potentials (disk_call C R s) zj zi).
  { intros zj zi C R s H1 H2 H3 H4 H5 i j qi qj
           (x & -> & Hx)%elements_lookup (y & -> & Hy)%elements_lookup.
    apply lookup_lt_Some in Hx as Hlt. unfold size in *.
    destruct (lookup_lt_is_Some_2 (magnitudes C) i) as [c Hc]; [lia|].
    destruct (lookup_lt_is_Some_2 (magnitudes R) i) as [r Hr]; [lia|].
    unfold disk_call, getitem. rewrite Hc, Hr. cbn [bind].
    rewrite potential_of_disk_value by assumption.
    eexists. split; [reflexivity|].
    cbn [simplified pq.mul pq.div scalar_mul dimensionality].
    rewrite dim_simplified_mul, dim_simplified_idem, <- dim_simplified_mul.
    exact H5. }
  assert (Hdisk : exists trace,
             accumulate (disk_call C_i R_i sigma) z_j z_i (zeros (size z_j) pq.V)
             = OK trace
             /\ accumulate (disk_call C_i' R_i' sigma') z_j' z_i'
                  (zeros (size z_j') pq.V) = OK trace).
  { apply synth_same_trace; try assumption.
    - apply Hret_d; assumption.
    - apply Hret_d; [assumption | assumption | lia | lia | assumption].
    - intros i j x x' y y' Hx Hx' Hy Hy'.
      apply lookup_lt_Some in Hx as Hlt. unfold size in *.
      destruct (lookup_lt_is_Some_2 (magnitudes C_i) i) as [c Hc]; [lia|].
      destruct (lookup_lt_is_Some_2 (magnitudes R_i) i) as [r Hr]; [lia|].
      destruct (si_magnitudes_lookup _ _ _ _ MC Hc) as (c' & Hc' & Ec).
      destruct (si_magnitudes_lookup _ _ _ _ MR Hr) as (r' & Hr' & Er).
      destruct (si_magnitudes_lookup _ _ _ _ Mi Hx) as (x2 & Hx2 & Ex).
      destruct (si_magnitudes_lookup _ _ _ _ Mj Hy) as (y2 & Hy2 & Ey).
      assert (x2 = x') by congruence. assert (y2 = y') by congruence. subst.
      unfold disk_call, getitem. rewrite Hc, Hc', Hr, Hr'. cbn [bind].
      rewrite !potential_of_disk_value by assumption.
      cbn [volts]. rewrite !disk_value_si by assumption.
      now rewrite Ec, Er, Ex, Ey, Ms. }
  destruct Hplane as (t & Ht & Ht'). destruct Hdisk as (td & Htd & Htd').
  exists t, td.
  unfold get_lfp_of_planes, get_lfp_of_disks.
  rewrite Ht, Ht', Htd, Htd'. auto.
Qed.

(** ** The further statements on concrete inputs *)

Lemma default_magnitudes_positive :
  0 <= magnitude default_C_i_areal
  /\ 0 < magnitude default_sigma
  /\ 0 < magnitude default_R_i.
Proof.
  unfold default_C_i_areal, default_sigma, default_R_i, pq.div, pq.pow,
    scalar_mul, pq.A, pq.S, pq.m.
  cbn [magnitude]. repeat split; lra.
Qed.

Lemma plane_potential_sign_and_decay_witness :
  exists phi phi' : Quantity,
    potential_of_plane z_300um default_z_i default_C_i_areal default_sigma
    = OK phi
    /\ potential_of_plane z_500um default_z_i default_C_i_areal default_sigma
       = OK phi'
    /\ dimensionality phi' = dimensionality phi
    /\ magnitude phi' <= magnitude phi <= 0.
Proof.
  apply (plane_potential_sign_and_decay z_300um z_500um default_z_i
           default_C_i_areal default_sigma eq_refl eq_refl
           (proj1 default_magnitudes_positive)
           (proj1 (proj2 default_magnitudes_positive))).
  unfold z_300um, z_500um, default_z_i, scalar_mul, pq.m. cbn [magnitude].
  rewrite !Rabs_pos_eq by lra. lra.
Defined.

Lemma disk_potential_bounds_witness :
  exists phi : Quantity,
    potential_of_disk z_300um default_z_i default_C_i_areal default_R_i
                      default_sigma = OK phi
    /\ 0 <= magnitude (simplified phi)
            <= magnitude (simplified default_C_i_areal)
               * magnitude (simplified default_R_i)
               / (2 * magnitude (simplified default_sigma)).
Proof.
  destruct (disk_potential_bounds z_300um default_z_i default_C_i_areal
              default_R_i default_sigma eq_refl eq_refl
              (proj1 default_magnitudes_positive)
              (proj1 (proj2 default_magnitudes_positive))
              (Rlt_le _ _ (proj2 (proj2 default_magnitudes_positive))))
    as (phi & H & Hb & _).
  exists phi. split; assumption.
Defined.

Lemma disk_approaches_plane_witness :
  exists disk disk0 plane : Quantity,
    potential_of_disk z_300um default_z_i default_C_i_areal default_R_i
                      default_sigma = OK disk
    /\ potential_of_disk default_z_i default_z_i default_C_i_areal default_R_i
                         default_sigma = OK disk0
    /\ potential_of_plane z_300um default_z_i default_C_i_areal default_sigma
       = OK plane
    /\ 0 <= magnitude (simplified disk) - magnitude (simplified disk0)
            - magnitude (simplified plane)
         <= magnitude (simplified default_C_i_areal)
            * (magnitude (simplified z_300um)
               - magnitude (simplified default_z_i)) ^ 2
            / (4 * magnitude (simplified default_sigma)
               * magnitude (simplified default_R_i)).
Proof.
  apply (disk_approaches_plane z_300um default_z_i default_C_i_areal
           default_R_i default_sigma eq_refl eq_refl
           (proj1 default_magnitudes_positive)
           (proj1 (proj2 default_magnitudes_positive))
           (proj2 (proj2 default_magnitudes_positive))).
Defined.

Lemma kernels_unit_invariant_witness :
  exists phi phi' : Quantity,
    potential_of_plane z_300um default_z_i default_C_i_areal default_sigma
    = OK phi
    /\ potential_of_plane (in_unit z_300um pq.mm) (in_unit default_z_i pq.mm)
         default_C_i_areal (in_unit default_sigma (pq.div pq.mS pq.m))
       = OK phi'
    /\ magnitude (simplified phi') = magnitude (simplified phi)
    /\ dimensionality (simplified phi') = dimensionality (simplified phi).
Proof.
  apply (kernels_unit_invariant z_300um default_z_i default_C_i_areal
           default_R_i default_sigma
           (in_unit z_300um pq.mm) (in_unit default_z_i pq.mm)
           default_C_i_areal (in_unit default_R_i pq.mm)
           (in_unit default_sigma (pq.div pq.mS pq.m))
           (dimensionality pq.mm) (dimensionality default_C_i_areal)
           (dimensionality (pq.div pq.mS pq.m))
           eq_refl eq_refl eq_refl eq_refl eq_refl).
  - unfold rescale. rewrite dim_eqb_refl, Z.sub_diag. cbn [powerRZ].
    destruct default_C_i_areal as [c d]. cbn. now rewrite Rmult_1_r.
  - reflexivity.
Defined.

Lemma test_planes_return :
  returns_potentials (plane_call test_C_i default_sigma) test_z_j test_z_j.
Proof. apply plane_call_returns; [reflexivity | cbn; lia | reflexivity]. Qed.

Lemma synthesizers_shape_witness :
  exists trace : QArray,
    get_lfp_of_planes test_z_j test_z_j test_C_i default_sigma
    = OK (trace, test_C_i)
    /\ a_dimensionality trace = dimensionality pq.V
    /\ size trace = size test_z_j.
Proof.
  destruct (synth_superposition _ _ _ test_planes_return) as (trace & Ht & _).
  assert (H : get_lfp_of_planes test_z_j test_z_j test_C_i default_sigma
              = OK (trace, test_C_i))
    by (unfold get_lfp_of_planes; now rewrite Ht).
  exists trace. split; [exact H|].
  apply (synthesizers_shape quad_tight test_z_j test_z_j test_C_i test_C_i
           test_C_i default_sigma trace test_C_i (or_introl H)).
Defined.

Lemma synthesizers_on_empty_arrays_witness :
  get_lfp_of_planes (mkQA [] (dimensionality pq.m)) test_z_j
    (mkQA [] (dimensionality pq.S)) default_sigma
  = OK (mkQA [] (dimensionality pq.V), mkQA [] (dimensionality pq.S)).
Proof.
  apply (proj1 (synthesizers_on_empty_arrays quad_tight
                  (mkQA [] (dimensionality pq.m)) test_z_j
                  (mkQA [] (dimensionality pq.S)) test_R_i test_R_i
                  default_sigma)).
  reflexivity.
Defined.

Lemma synthesizers_raise_first_failure_witness :
  get_lfp_of_planes test_z_j test_z_j (mkQA [] (a_dimensionality test_C_i))
                    default_sigma
  = Raise IndexError.
Proof.
  refine (proj1 (synthesizers_raise_first_failure quad_tight test_z_j test_z_j
                   (mkQA [] (a_dimensionality test_C_i)) test_R_i test_R_i
                   default_sigma 0%nat 0%nat _ _ IndexError eq_refl eq_refl)
                _ _).
  - intros i' j' zi' zj' _ _ [H|[_ H]]; lia.
  - left. reflexivity.
Defined.

Lemma get_lfp_of_planes_errors_witness :
  get_lfp_of_planes test_z_j (coord_in_millimetre test_z_j) test_C_i
                    default_sigma
  = Raise AssertionError.
Proof.
  assert (H21 : (0 < size test_z_j)%nat) by (cbn; lia).
  apply (proj1 (proj2 (get_lfp_of_planes_errors test_z_j
                         (coord_in_millimetre test_z_j) test_C_i
                         default_sigma H21))).
  - cbn; lia.
  - cbn; lia.
  - reflexivity.
Defined.

Lemma sources_order_irrelevant_witness :
  exists trace C C' : QArray,
    get_lfp_of_planes test_z_j
      (concat test_z_j (mkQA [3E-4] (dimensionality pq.m)))
      (concat test_C_i (mkQA [1] (dimensionality default_C_i_areal)))
      default_sigma
    = OK (trace, C)
    /\ get_lfp_of_planes test_z_j
         (concat (mkQA [3E-4] (dimensionality pq.m)) test_z_j)
         (concat (mkQA [1] (dimensionality default_C_i_areal)) test_C_i)
         default_sigma
       = OK (trace, C')
    /\ size trace = size test_z_j.
Proof.
  assert (Hret : returns_potentials
                   (plane_call
                      (concat test_C_i
                              (mkQA [1] (dimensionality default_C_i_areal)))
                      default_sigma)
                   test_z_j
                   (concat test_z_j (mkQA [3E-4] (dimensionality pq.m))))
    by (apply plane_call_returns; [reflexivity | cbn; lia | reflexivity]).
  destruct (synth_superposition _ _ _ Hret) as (trace & Ht & _ & Hsize & _).
  assert (H1 : get_lfp_of_planes test_z_j
                 (concat test_z_j (mkQA [3E-4] (dimensionality pq.m)))
                 (concat test_C_i (mkQA [1] (dimensionality default_C_i_areal)))
                 default_sigma
               = OK (trace,
                     concat test_C_i
                            (mkQA [1] (dimensionality default_C_i_areal))))
    by (unfold get_lfp_of_planes; now rewrite Ht).
  assert (S : size test_C_i = size test_z_j /\ size test_R_i = size test_z_j
              /\ size test_R_i = size test_z_j)
    by (cbn; repeat split; reflexivity).
  assert (S' : size (mkQA [1] (dimensionality default_C_i_areal))
               = size (mkQA [3E-4] (dimensionality pq.m))
               /\ size (mkQA [1E-3] (dimensionality pq.m))
                  = size (mkQA [3E-4] (dimensionality pq.m))
               /\ size (mkQA [1E-3] (dimensionality pq.m))
                  = size (mkQA [3E-4] (dimensionality pq.m)))
    by (cbn; repeat split; reflexivity).
  destruct (proj1 (proj1 (sources_order_irrelevant quad_tight test_z_j test_z_j
                            (mkQA [3E-4] (dimensionality pq.m))
                            test_C_i
                            (mkQA [1] (dimensionality default_C_i_areal))
                            test_R_i (mkQA [1E-3] (dimensionality pq.m))
                            test_R_i (mkQA [1E-3] (dimensionality pq.m))
                            default_sigma trace
                            eq_refl eq_refl eq_refl eq_refl S S'))
                  (ex_intro _ _ H1))
    as [C' H2].
  exists trace. eexists. exists C'.
  split; [exact H1|]. split; [exact H2 | exact Hsize].
Defined.

Lemma electrodes_independent_witness :
  exists trace trace' : QArray,
    get_lfp_of_planes test_z_j test_z_j test_C_i default_sigma
    = OK (trace, test_C_i)
    /\ get_lfp_of_planes
         (mkQA (delete 5%nat (magnitudes test_z_j)) (a_dimensionality test_z_j))
         test_z_j test_C_i default_sigma
       = OK (trace', test_C_i)
    /\ getitems trace test_inds = OK trace'.
Proof.
  apply (proj1 (electrodes_independent quad_tight test_z_j
                  (mkQA (delete 5%nat (magnitudes test_z_j))
                        (a_dimensionality test_z_j))
                  test_z_j test_C_i test_R_i test_R_i default_sigma
                  test_inds eq_refl)).
  exact test_planes_return.
Defined.

(** A position array in metres and its re-expression in millimetres
    denote the same quantities. *)
Lemma coord_in_millimetre_same (z : QArray) :
  same_quantities z (coord_in_millimetre z).
Proof.
  unfold same_quantities, si_magnitudes, coord_in_millimetre, array_div,
    array_mul, array_mul_scalar.
  cbn [magnitudes a_dimensionality]. split.
  - rewrite dim_simplified_div, dim_simplified_mul.
    destruct (dim_simplified (a_dimensionality z)).
    unfold dim_div, dim_mul; cbn. f_equal; lia.
  - rewrite !map_map. apply map_ext. intros x.
    pose proof (reexpressed_si x (a_dimensionality z) pq.mm pq.m
                  eq_refl eq_refl eq_refl eq_refl) as E.
    apply (f_equal magnitude) in E. exact E.
Qed.

Lemma same_quantities_refl (a : QArray) : same_quantities a a.
Proof. split; reflexivity. Qed.

Lemma traces_unit_invariant_witness :
  exists trace trace_d : QArray,
    get_lfp_of_planes test_z_j test_z_j test_C_i default_sigma
    = OK (trace, test_C_i)
    /\ get_lfp_of_planes (coord_in_millimetre test_z_j)
         (coord_in_millimetre test_z_j) test_C_i
         (sigma_in_millisiemens default_sigma)
       = OK (trace, test_C_i)
    /\ get_lfp_of_disks test_z_j test_z_j test_C_i test_R_i default_sigma
       = OK (trace_d, test_C_i)
    /\ get_lfp_of_disks (coord_in_millimetre test_z_j)
         (coord_in_millimetre test_z_j) test_C_i
         (coord_in_millimetre test_R_i)
         (sigma_in_millisiemens default_sigma)
       = OK (trace_d, test_C_i).
Proof.
  apply (traces_unit_invariant test_z_j test_z_j test_C_i test_R_i
           (coord_in_millimetre test_z_j) (coord_in_millimetre test_z_j)
           test_C_i (coord_in_millimetre test_R_i)
           default_sigma (sigma_in_millisiemens default_sigma)
           (coord_in_millimetre_same test_z_j)
           (coord_in_millimetre_same test_z_j)
           (same_quantities_refl test_C_i)
           (coord_in_millimetre_same test_R_i)).
  - destruct default_sigma as [x d] eqn:E.
    exact (reexpressed_si x d pq.mS pq.S eq_refl eq_refl eq_refl eq_refl).
  - reflexivity.
  - reflexivity.
  - reflexivity.
  - reflexivity.
  - cbn; lia.
  - cbn; lia.
  - reflexivity.
Defined.
